(** * Tool-usage evaluators of langchain-benchmarks

    A shallow embedding of [langchain_benchmarks/tool_usage/evaluators.py]:
    the trajectory comparator [compare_outputs], the judge
    [QAMathEvaluator] and the run evaluator [AgentTrajectoryEvaluator].

    Conventions of the embedding:
    - a Python [str] is a Rocq [string] holding its UTF-8 bytes; the
      byte-wise lexicographic order of [String.compare] coincides with
      Python's code-point order on [str];
    - a Python [dict] with a fixed set of keys is a record whose fields are
      options ([None] = key absent);
    - a raised exception is the [Raise] outcome of an error monad;
    - the float returned by [len(a) / len(b)] is represented by its value,
      the rational number obtained by rounding the exact quotient to 53
      significant bits, to nearest with ties to even; list lengths stay
      below 2^63, where binary64 neither overflows nor goes subnormal;
    - language models, the general-purpose QA grading chain and the run
      tracer are external collaborators: they are variables of the section
      the evaluators live in. *)

From Stdlib Require Import List String Ascii Bool Arith ZArith QArith Lia.
From Stdlib Require Import Sorting.Permutation Sorting.Sorted Sorting.Mergesort.
From Stdlib Require Import Orders Qround Qabs Qpower Lqa.
Import ListNotations.

Local Open Scope string_scope.
Local Open Scope list_scope.

(** ** Exceptions and outcomes *)

Inductive exn : Type :=
| ValueError (msg : string)
| KeyError (key : string)
| ZeroDivisionError (msg : string)
| TypeError (msg : string)
| IndexError (msg : string)
| AttributeError (msg : string)
| ProviderError (msg : string).

Inductive outcome (A : Type) : Type :=
| Raise (e : exn)
| Return (a : A).

Arguments Raise {A} e.
Arguments Return {A} a.

Definition bind {A B : Type} (m : outcome A) (k : A -> outcome B) : outcome B :=
  match m with
  | Raise e => Raise e
  | Return a => k a
  end.

Notation "x <- m ;; k" := (bind m (fun x => k))
  (at level 61, m at next level, right associativity).

(** [d[key]] on a dictionary field: [KeyError] when the key is absent. *)
Definition subscript {A : Type} (key : string) (field : option A) : outcome A :=
  match field with
  | Some a => Return a
  | None => Raise (KeyError key)
  end.

(** ** Python built-ins used by the comparator *)

Module StringOrder <: TotalLeBool.
Definition t := string.
Definition leb (x y : t) : bool := String.leb x y.
Theorem leb_total : forall a1 a2, is_true (leb a1 a2) \/ is_true (leb a2 a1).
Proof. intros a1 a2. exact (String.leb_total a1 a2). Qed.
End StringOrder.

Module StringSort := Sort StringOrder.

(** [sorted(l)] on a list of [str]. *)
Definition sorted (l : list string) : list string := StringSort.sort l.

(** [a == b] on two lists of [str]. *)
Definition list_eqb (a b : list string) : bool :=
  if list_eq_dec string_dec a b then true else false.

(** [int(b)] on a [bool]. *)
Definition int (b : bool) : Z := if b then 1%Z else 0%Z.

(** [str(b)] on a [bool], as an f-string renders it. *)
Definition str_of_bool (b : bool) : string := if b then "True" else "False".

(** The binade of a positive rational [x]: the integer [e] with
    [2^e <= x < 2^(e+1)]. *)
Definition binade (x : Q) : Z :=
  let d := (Z.log2 (Qnum x) - Z.log2 (Z.pos (Qden x)))%Z in
  if Qle_bool (2 ^ d)%Q x then d else (d - 1)%Z.

(** The integer nearest a rational, ties to the even one. *)
Definition round_half_even (k : Q) : Z :=
  let f := Qfloor k in
  match (k - inject_Z f ?= 1 # 2)%Q with
  | Lt => f
  | Gt => (f + 1)%Z
  | Eq => if Z.even f then f else (f + 1)%Z
  end.

(** A positive rational rounded to 53 significant bits: the spacing of
    the floats of its binade is [2^(e-52)]. *)
Definition round_positive (x : Q) : Q :=
  let ulp := (2 ^ (binade x - 52))%Q in
  (inject_Z (round_half_even (x / ulp)) * ulp)%Q.

(** The value of the float nearest a rational. *)
Definition round_double (x : Q) : Q :=
  match (x ?= 0)%Q with
  | Eq => 0%Q
  | Gt => round_positive x
  | Lt => (- round_positive (- x))%Q
  end.

(** A float, exponent range aside: a significand below 2^53 times a
    power of two. *)
Definition representable (f : Q) : Prop :=
  exists r k : Z, (Z.abs r < 2 ^ 53)%Z /\ (f == inject_Z r * 2 ^ k)%Q.

(** [n / m] on two lengths: true division, which returns the float
    nearest the exact quotient. *)
Definition truediv (n m : nat) : outcome Q :=
  match m with
  | O => Raise (ZeroDivisionError "division by zero")
  | S _ => Return (round_double (Z.of_nat n # Pos.of_nat m))
  end.

(** [s.startswith(p)]. *)
Definition startswith (s p : string) : bool := String.prefix p s.

(** ** Data model *)

(** A score of an [EvaluationResult]: an [int], a [float] (carried as the
    rational number it denotes) or [None]. *)
Inductive score : Type :=
| IntScore (z : Z)
| FloatScore (q : Q)
| NoScore.

Record EvaluationResult : Type := {
  key : string;
  score_of : score;
  comment : option string;
  source_run_id : option string
}.

(** The dictionary [{"results": results}]. *)
Record EvaluationResults : Type := {
  results : list EvaluationResult
}.

(** [AgentAction]: the first half of an intermediate step. *)
Record AgentAction : Type := {
  tool : string;
  tool_input : string;
  log : string
}.

(** A message of the chat framework: its class and its content. A
    content is a string or a list whose parts are strings or dictionaries
    (content blocks); of a dictionary the code reads the keys "name",
    "input" and "text", and the values of an "input" dictionary are
    carried as their [str()] renderings. *)
Inductive message_class : Type :=
| HumanMessage
| SystemMessage
| ToolMessage
| AIMessage.

Record content_block : Type := {
  block_name : option string;
  block_input : option (list (string * string));
  block_text : option string
}.

Inductive content_part : Type :=
| StrPart (s : string)
| DictPart (d : content_block).

Inductive message_content : Type :=
| Text (s : string)
| Blocks (l : list content_part).

Record Message : Type := {
  class_of : message_class;
  content : message_content
}.

(** What invoking a prompt piped into a model returns: a message when the
    model is a chat model, a bare string when it is a completion model. *)
Inductive invoke_result : Type :=
| MessageResult (message : Message)
| StringResult (text : string).

(** The keyword arguments of the default judge model. *)
Record ChatOpenAI_config : Type := {
  model : string;
  temperature : Z;
  seed : Z;
  max_retries : nat;
  request_timeout : nat
}.

(** The prompt handed to [load_evaluator(EvaluatorType.QA, ...)]. *)
Inductive prompt_template : Type :=
| QA_TEMPLATE_FOR_MULTIVERSE_MATH.

(** What a judge call yields under [collect_runs()]: its value and the
    identifiers of the runs the collector traced, in order. *)
Definition traced (A : Type) : Type := outcome (A * list string).

Definition missing_steps_message : string :=
  "Please make sure that your agent outputs 'intermediate_steps or 'actual_steps'".

Definition missing_expected_message : string :=
  "Please make sure that your dataset contains 'expected_steps'".

Definition conflicting_judge_message : string :=
  "If output_evaluation is 'none', then eval_llm must be None".

Section Evaluators.

(** Arbitrary Python values (observations, states) and their [==]. *)
Variable value : Type.
Variable value_eqb : value -> value -> bool.

(** Language-model clients and the constructor of the default one, which
    may fail (no credentials, say). *)
Variable llm : Type.
Variable ChatOpenAI : ChatOpenAI_config -> outcome llm.

(** The error [load_evaluator(EvaluatorType.QA, llm=..., prompt=...)]
    raises on a model and a prompt, if it raises one. *)
Variable load_failure : llm -> option prompt_template -> option exn.

(** [(QA_TEMPLATE_FOR_MULTIVERSE_MATH_WITHOUT_QUESTION | chat_model).invoke(
    {"answer": ..., "result": ...})]. *)
Variable chain_invoke : llm -> option string -> string -> traced invoke_result.

(** [load_evaluator(EvaluatorType.QA, llm=..., prompt=...).evaluate_strings(
    prediction=..., reference=..., input=...)]: the reported score. *)
Variable qa_chain_evaluate :
  llm -> option prompt_template -> string -> string -> string -> traced score.

Record RunOutputs : Type := {
  run_intermediate_steps : option (list (AgentAction * value));
  run_actual_steps : option (list string);
  run_state : option value;
  run_output : option string
}.

Record ExampleOutputs : Type := {
  example_expected_steps : option (list string);
  example_order_matters : option bool;
  example_state : option value;
  example_reference : option string
}.

Record RunInputs : Type := {
  inputs_question : option string
}.

Record Run : Type := {
  outputs : option RunOutputs;
  inputs : RunInputs
}.

Record Example : Type := {
  ex_outputs : option ExampleOutputs
}.

(** *** The judges *)

Inductive StringEvaluator : Type :=
| QAMathEvaluator (chat_model : llm)
| QAEvalChain (eval_llm : llm) (prompt : option prompt_template).

Definition evaluation_name : string := "QAMathEvaluator".

Definition requires_reference (ev : StringEvaluator) : bool := true.

Definition requires_input (ev : StringEvaluator) : bool :=
  match ev with
  | QAMathEvaluator _ => false
  | QAEvalChain _ _ => true
  end.

(** [result.content.startswith("CORRECT")]: a string has no [content],
    a list has no [startswith]. *)
Definition content_startswith_CORRECT (result : invoke_result) : outcome bool :=
  match result with
  | StringResult _ =>
      Raise (AttributeError "'str' object has no attribute 'content'")
  | MessageResult message =>
      match content message with
      | Blocks _ =>
          Raise (AttributeError "'list' object has no attribute 'startswith'")
      | Text text => Return (startswith text "CORRECT")
      end
  end.

(** [QAMathEvaluator._evaluate_strings]. *)
Definition _evaluate_strings (eval_chain : llm) (prediction : string)
    (input : option string) (reference : option string) : traced score :=
  invoked <- chain_invoke eval_chain reference prediction ;;
  let '(result, runs) := invoked in
  verdict <- content_startswith_CORRECT result ;;
  if (verdict : bool)
  then Return (IntScore 1, runs)
  else Return (IntScore 0, runs).

(** [qa_evaluator.evaluate_strings(prediction=..., reference=...)] on a
    [QAMathEvaluator]: the base class finds the reference it requires and
    no input, and calls [_evaluate_strings]. *)
Definition evaluate_strings_without_input (chat_model : llm)
    (prediction reference : string) : traced score :=
  _evaluate_strings chat_model prediction None (Some reference).

(** *** The comparator *)

(** Lines 78-91: the actual steps of a run. *)
Definition extract_actual_steps (run_outputs : RunOutputs) : outcome (list string) :=
  match run_intermediate_steps run_outputs with
  | Some intermediate_steps =>
      Return (map (fun step => tool (fst step)) intermediate_steps)
  | None =>
      match run_actual_steps run_outputs with
      | Some actual_steps => Return actual_steps
      | None => Raise (ValueError missing_steps_message)
      end
  end.

(** Lines 97-104. *)
Definition trajectory_score (order_matters : bool)
    (actual_steps expected_steps : list string) : Z :=
  if order_matters
  then int (list_eqb actual_steps expected_steps)
  else int (list_eqb (sorted actual_steps) (sorted expected_steps)).

(** Lines 134-154: the judged output, appended when asked for. *)
Definition output_results (run_outputs : RunOutputs)
    (example_outputs : ExampleOutputs) (run_inputs : RunInputs)
    (qa_evaluator : option StringEvaluator) : outcome (list EvaluationResult) :=
  match run_output run_outputs, qa_evaluator with
  | Some output, Some ev =>
      qa_results <-
        match ev with
        | QAMathEvaluator chat_model =>
            reference <- subscript "reference" (example_reference example_outputs) ;;
            evaluate_strings_without_input chat_model output reference
        | QAEvalChain eval_llm prompt =>
            reference <- subscript "reference" (example_reference example_outputs) ;;
            question <- subscript "question" (inputs_question run_inputs) ;;
            qa_chain_evaluate eval_llm prompt output reference question
        end ;;
      let '(qa_score, traced_runs) := qa_results in
      run0 <- match traced_runs with
              | [] => Raise (IndexError "list index out of range")
              | r :: _ => Return r
              end ;;
      Return [ {| key := "correctness"; score_of := qa_score;
                  comment := None; source_run_id := Some run0 |} ]
  | _, _ => Return []
  end.

Definition state_results (run_outputs : RunOutputs)
    (example_outputs : ExampleOutputs) : list EvaluationResult :=
  match run_state run_outputs, example_state example_outputs with
  | Some state, Some example_state =>
      [ {| key := "Correct Final State";
           score_of := IntScore (int (value_eqb state example_state));
           comment := None; source_run_id := None |} ]
  | _, _ => []
  end.

Definition compare_outputs (run_outputs : RunOutputs)
    (example_outputs : ExampleOutputs) (run_inputs : RunInputs)
    (qa_evaluator : option StringEvaluator) : outcome EvaluationResults :=
  actual_steps <- extract_actual_steps run_outputs ;;
  expected_steps <- subscript "expected_steps" (example_expected_steps example_outputs) ;;
  let order_matters :=
    match example_order_matters example_outputs with
    | Some flag => flag
    | None => true
    end in
  let trajectory_score := trajectory_score order_matters actual_steps expected_steps in
  step_fraction <- truediv (List.length actual_steps) (List.length expected_steps) ;;
  let results :=
    [ {| key := "Intermediate steps correctness";
         score_of := IntScore trajectory_score;
         comment := Some (String.append "Order matters=" (str_of_bool order_matters));
         source_run_id := None |};
      {| key := "# steps / # expected steps";
         score_of := FloatScore step_fraction;
         comment := None; source_run_id := None |} ] in
  let results := results ++ state_results run_outputs example_outputs in
  judged <- output_results run_outputs example_outputs run_inputs qa_evaluator ;;
  Return {| results := results ++ judged |}.

(** *** The run evaluator *)

Record AgentTrajectoryEvaluator : Type := {
  qa_evaluator : option StringEvaluator;
  output_evaluation : string
}.

Definition default_ChatOpenAI : outcome llm :=
  ChatOpenAI {| model := "gpt-4"; temperature := 0; seed := 42;
                max_retries := 1; request_timeout := 60 |}.

(** [load_evaluator(EvaluatorType.QA, llm=eval_llm, prompt=...)]: the QA
    chain over the model and the prompt, unless loading fails. *)
Definition load_evaluator (eval_llm : llm) (prompt : option prompt_template)
    : outcome StringEvaluator :=
  match load_failure eval_llm prompt with
  | Some e => Raise e
  | None => Return (QAEvalChain eval_llm prompt)
  end.

(** [AgentTrajectoryEvaluator.__init__]. *)
Definition __init__ (eval_llm : option llm) (output_evaluation : string)
    : outcome AgentTrajectoryEvaluator :=
  qa_evaluator <-
    (if String.eqb output_evaluation "none" then
       match eval_llm with
       | Some _ => Raise (ValueError conflicting_judge_message)
       | None => Return None
       end
     else
       eval_llm <-
         match eval_llm with
         | Some given => Return given
         | None => default_ChatOpenAI
         end ;;
       if String.eqb output_evaluation "qa" then
         qa_evaluator <- load_evaluator eval_llm None ;;
         Return (Some qa_evaluator)
       else if String.eqb output_evaluation "qa_math" then
         qa_evaluator <-
           load_evaluator eval_llm (Some QA_TEMPLATE_FOR_MULTIVERSE_MATH) ;;
         Return (Some qa_evaluator)
       else if String.eqb output_evaluation "qa_math_without_question" then
         Return (Some (QAMathEvaluator eval_llm))
       else
         Raise (ValueError (String.append
                  "output_evaluation must be one of 'qa' or 'none', got "
                  output_evaluation))) ;;
  Return {| qa_evaluator := qa_evaluator; output_evaluation := output_evaluation |}.

(** [AgentTrajectoryEvaluator.evaluate_run]. *)
Definition evaluate_run (self : AgentTrajectoryEvaluator) (run : Run)
    (example : option Example) : outcome EvaluationResults :=
  match outputs run with
  | None => Raise (ValueError "Run outputs cannot be None")
  | Some run_outputs =>
      match example with
      | None => Raise (ValueError "Example cannot be None")
      | Some example =>
          match run_intermediate_steps run_outputs, run_actual_steps run_outputs with
          | None, None => Raise (ValueError missing_steps_message)
          | _, _ =>
              match ex_outputs example with
              | None => Raise (TypeError "argument of type 'NoneType' is not iterable")
              | Some example_outputs =>
                  match example_expected_steps example_outputs with
                  | None => Raise (ValueError missing_expected_message)
                  | Some _ =>
                      compare_outputs run_outputs example_outputs (inputs run)
                                      (qa_evaluator self)
                  end
              end
          end
      end
  end.

(** [get_eval_config]: the custom evaluators of the returned configuration. *)
Definition get_eval_config (eval_llm : option llm) (output_evaluation : string)
    : outcome (list AgentTrajectoryEvaluator) :=
  evaluator <- __init__ eval_llm output_evaluation ;;
  Return [evaluator].

End Evaluators.

Arguments compare_outputs {value} value_eqb {llm} chain_invoke qa_chain_evaluate
  run_outputs example_outputs run_inputs qa_evaluator.
Arguments output_results {value llm} chain_invoke qa_chain_evaluate
  run_outputs example_outputs run_inputs qa_evaluator.
Arguments state_results {value} value_eqb run_outputs example_outputs.
Arguments extract_actual_steps {value} run_outputs.
Arguments evaluate_run {value} value_eqb {llm} chain_invoke qa_chain_evaluate
  self run example.
Arguments _evaluate_strings {llm} chain_invoke eval_chain prediction input reference.
Arguments __init__ {llm} ChatOpenAI load_failure eval_llm output_evaluation.
Arguments load_evaluator {llm} load_failure eval_llm prompt.
Arguments QAMathEvaluator {llm} chat_model.
Arguments QAEvalChain {llm} eval_llm prompt.
Arguments run_intermediate_steps {value} _.
Arguments run_actual_steps {value} _.
Arguments run_state {value} _.
Arguments run_output {value} _.
Arguments example_expected_steps {value} _.
Arguments example_order_matters {value} _.
Arguments example_state {value} _.
Arguments example_reference {value} _.
Arguments outputs {value} _.
Arguments inputs {value} _.
Arguments ex_outputs {value} _.
Arguments qa_evaluator {llm} _.
Arguments output_evaluation {llm} _.
Arguments requires_input {llm} ev.
Arguments requires_reference {llm} ev.

(** ** Reading a result collection *)

(** The stable keys of the result collection. *)
Definition trajectory_key : string := "Intermediate steps correctness".
Definition ratio_key : string := "# steps / # expected steps".
Definition state_key : string := "Correct Final State".
Definition correctness_key : string := "correctness".

(** The score filed under a key, if any. *)
Definition find_score (k : string) (res : EvaluationResults) : option score :=
  option_map score_of (find (fun r => String.eqb (key r) k) (results res)).

(** The flag [example_outputs.get("order_matters", True)] resolves to. *)
Definition resolved_order_matters (flag : option bool) : bool :=
  match flag with
  | Some b => b
  | None => true
  end.

(** The quotient N/M of the specification, as a rational number. *)
Definition exact_ratio (N M : nat) : Q :=
  inject_Z (Z.of_nat N) / inject_Z (Z.of_nat M).

(** Same length and the same identifier at every position. *)
Definition elementwise_identical (a b : list string) : Prop :=
  List.length a = List.length b /\ forall i, nth_error a i = nth_error b i.

(** The tool identifiers carried by a list of (action, observation) pairs. *)
Definition tools_of {value : Type} (steps : list (AgentAction * value)) : list string :=
  map (fun step => tool (fst step)) steps.

(** ** Stub collaborators

    A stub language model is its canned reply; the stub grading chain
    reports 1 exactly when prediction and reference coincide. States and
    observations are integers. *)

Module Stub.

Definition llm : Type := string.

Definition ChatOpenAI (config : ChatOpenAI_config) : outcome llm :=
  Return "CORRECT".

Definition load_failure (eval_llm : llm) (prompt : option prompt_template)
    : option exn :=
  None.

Definition reply (text : string) : invoke_result :=
  MessageResult {| class_of := AIMessage; content := Text text |}.

Definition chain_invoke (chat_model : llm) (answer : option string)
    (result : string) : traced invoke_result :=
  Return (reply chat_model, ["run-1"]).

Definition qa_chain_evaluate (eval_llm : llm) (prompt : option prompt_template)
    (prediction reference input : string) : traced score :=
  Return (IntScore (int (String.eqb prediction reference)), ["run-1"]).

Definition compare_outputs := compare_outputs Z.eqb chain_invoke qa_chain_evaluate.

Definition evaluate_run := evaluate_run Z.eqb chain_invoke qa_chain_evaluate.

Definition action (name : string) : AgentAction :=
  {| tool := name; tool_input := ""; log := "" |}.

(** [{"actual_steps": steps}]. *)
Definition run_with_steps (steps : list string) : RunOutputs Z :=
  {| run_intermediate_steps := None; run_actual_steps := Some steps;
     run_state := None; run_output := None |}.

(** [{"intermediate_steps": steps}]. *)
Definition run_with_pairs (steps : list (AgentAction * Z)) : RunOutputs Z :=
  {| run_intermediate_steps := Some steps; run_actual_steps := None;
     run_state := None; run_output := None |}.

(** [{"expected_steps": steps}], with ["order_matters"] when given. *)
Definition example_with_steps (steps : list string) (flag : option bool)
    : ExampleOutputs Z :=
  {| example_expected_steps := Some steps; example_order_matters := flag;
     example_state := None; example_reference := None |}.

Definition no_inputs : RunInputs := {| inputs_question := None |}.

(** [{"actual_steps": steps, "output": text}]. *)
Definition run_with_output (steps : list string) (text : string) : RunOutputs Z :=
  {| run_intermediate_steps := None; run_actual_steps := Some steps;
     run_state := None; run_output := Some text |}.

(** [{"output": text}]: no step sequence at all. *)
Definition run_without_steps (text : string) : RunOutputs Z :=
  {| run_intermediate_steps := None; run_actual_steps := None;
     run_state := None; run_output := Some text |}.

(** [{"expected_steps": steps, "reference": text}]. *)
Definition example_with_reference (steps : list string) (text : string)
    : ExampleOutputs Z :=
  {| example_expected_steps := Some steps; example_order_matters := None;
     example_state := None; example_reference := Some text |}.

Definition question (text : string) : RunInputs :=
  {| inputs_question := Some text |}.

End Stub.

(** Lines 137-147: the call the comparator makes on a judge, and what the
    call yields. *)
Definition judge_call {value llm : Type}
    (chain_invoke : llm -> option string -> string -> traced invoke_result)
    (qa_chain_evaluate :
       llm -> option prompt_template -> string -> string -> string -> traced score)
    (example_outputs : ExampleOutputs value) (run_inputs : RunInputs)
    (judge : StringEvaluator llm) (output : string) : traced score :=
  match judge with
  | QAMathEvaluator chat_model =>
      reference <- subscript "reference" (example_reference example_outputs) ;;
      _evaluate_strings chain_invoke chat_model output None (Some reference)
  | QAEvalChain eval_llm prompt =>
      reference <- subscript "reference" (example_reference example_outputs) ;;
      question <- subscript "question" (inputs_question run_inputs) ;;
      qa_chain_evaluate eval_llm prompt output reference question
  end.

Arguments default_ChatOpenAI {llm} ChatOpenAI.
Arguments get_eval_config {llm} ChatOpenAI load_failure eval_llm output_evaluation.

(** [eval_llm or ChatOpenAI(...)]: the model a judge is built on. *)
Definition judge_model {llm : Type} (ChatOpenAI : ChatOpenAI_config -> outcome llm)
    (eval_llm : option llm) : outcome llm :=
  match eval_llm with
  | Some given => Return given
  | None => default_ChatOpenAI ChatOpenAI
  end.

(** The whole entry filed under a key, if any. *)
Definition find_result (k : string) (res : EvaluationResults)
    : option EvaluationResult :=
  find (fun r => String.eqb (key r) k) (results res).

(** ** The benchmark script: few-shot material

    [scripts/multiverse_math_benchmark.py]. The LangSmith client and
    [convert_to_messages] are external collaborators. *)

(** The line feed written [\n] in the source. *)
Definition LF : string := String "010"%char EmptyString.

(** [isinstance(m, SystemMessage)]. *)
Definition isinstance_SystemMessage (m : Message) : bool :=
  match class_of m with
  | SystemMessage => true
  | _ => false
  end.

(** [[m for m in messages if not isinstance(m, SystemMessage)]]. *)
Definition without_system (messages : list Message) : list Message :=
  filter (fun m => negb (isinstance_SystemMessage m)) messages.

(** Lines 90-93: what one part of a list content adds to the string. On a
    part that is a string, ["name" in tool_use] is a substring test and
    either branch then subscripts the string with a string, a [TypeError]
    (worded as CPython 3.11 and later word it). *)
Definition render_tool_use (tool_use : content_part) : outcome string :=
  match tool_use with
  | StrPart _ =>
      Raise (TypeError "string indices must be integers, not 'str'")
  | DictPart block =>
      match block_name block with
      | Some name =>
          input <- subscript "input" (block_input block) ;;
          Return (String.append "Use tool "
                   (String.append name
                     (String.append ", input: "
                       (String.concat ", "
                          (map (fun kv => String.append (fst kv)
                                            (String.append ":" (snd kv)))
                               input)))))
      | None => subscript "text" (block_text block)
      end
  end.

(** Lines 89-94: the inner loop over the parts of one message. *)
Fixpoint render_blocks (few_shot_str : string) (blocks : list content_part)
    : outcome string :=
  match blocks with
  | [] => Return few_shot_str
  | tool_use :: rest =>
      piece <- render_tool_use tool_use ;;
      render_blocks (String.append (String.append few_shot_str piece) LF) rest
  end.

(** Lines 97-102: a message whose content is a string. *)
Definition render_text (class : message_class) (text : string) : string :=
  match class with
  | HumanMessage =>
      String.append "<|im_start|>user"
        (String.append LF (String.append text (String.append LF "<|im_end|>")))
  | ToolMessage =>
      String.append "<|im_start|>tool"
        (String.append LF (String.append text (String.append LF "<|im_end|>")))
  | _ =>
      String.append "<|im_start|>assistant"
        (String.append LF (String.append text (String.append LF "<|im_end|>")))
  end.

(** Lines 86-104: the loop of [turn_messages_to_str]. *)
Fixpoint turn_messages_loop (few_shot_str : string) (messages : list Message)
    : outcome string :=
  match messages with
  | [] => Return few_shot_str
  | m :: rest =>
      few_shot_str <-
        match content m with
        | Blocks blocks =>
            rendered <- render_blocks
                          (String.append few_shot_str "<|im_start|>assistant")
                          blocks ;;
            Return (String.append rendered (String.append LF "<|im_end|>"))
        | Text text =>
            Return (String.append few_shot_str (render_text (class_of m) text))
        end ;;
      turn_messages_loop (String.append few_shot_str LF) rest
  end.

Definition turn_messages_to_str (few_shot_messages : list Message)
    : outcome string :=
  turn_messages_loop EmptyString few_shot_messages.

Definition get_few_shot_str_from_messages
    (few_shot_messages few_shot_three_messages : list Message)
    : outcome (string * string) :=
  few_shot_str <- turn_messages_to_str few_shot_messages ;;
  few_shot_three_str <- turn_messages_to_str few_shot_three_messages ;;
  Return (few_shot_str, few_shot_three_str).

(** One entry of the [examples] list built by [get_few_shot_messages]. *)
Record few_shot_example : Type := {
  example_question : message_content;
  example_messages : list Message
}.

Definition few_shot_task : string := "Multiverse Math".

Definition few_shot_dataset : string := "multiverse-math-examples-for-few-shot".

Definition prompt_names : list string :=
  [ "no-few-shot"; "few-shot-messages"; "few-shot-string";
    "few-shot-three-messages"; "few-shot-three-strings" ].

Section Script.

(** The stored form of a conversation and its conversion. *)
Variable raw : Type.
Variable convert_to_messages : raw -> outcome (list Message).

(** An example of the few-shot dataset: its [outputs] dictionary. *)
Record DatasetExample : Type := {
  outputs_output : option raw
}.

(** [client.list_examples(dataset_name=...)], drained into a list. *)
Variable list_examples : string -> outcome (list DatasetExample).

(** [client.pull_prompt(...)]. *)
Variable prompt : Type.
Variable pull_prompt : string -> outcome prompt.

(** Lines 56-73: the loop over the listed examples, from index [i]. *)
Fixpoint few_shot_loop (i : nat) (uncleaned_examples : list DatasetExample)
    (examples : list few_shot_example)
    (few_shot_messages few_shot_three_messages : list Message)
    : outcome (list few_shot_example * list Message * list Message) :=
  match uncleaned_examples with
  | [] => Return (examples, few_shot_messages, few_shot_three_messages)
  | e :: rest =>
      stored <- subscript "output" (outputs_output e) ;;
      converted_messages <- convert_to_messages stored ;;
      second <- match nth_error converted_messages 1 with
                | Some m => Return m
                | None => Raise (IndexError "list index out of range")
                end ;;
      let examples :=
        examples ++ [ {| example_question := content second;
                         example_messages := without_system converted_messages |} ] in
      let few_shot_messages := few_shot_messages ++ converted_messages in
      let few_shot_three_messages :=
        if Nat.ltb i 3
        then few_shot_three_messages ++ converted_messages
        else few_shot_three_messages in
      few_shot_loop (S i) rest examples few_shot_messages few_shot_three_messages
  end.

Definition get_few_shot_messages (task_name : string)
    : outcome (list few_shot_example * list Message * list Message) :=
  if String.eqb task_name few_shot_task then
    uncleaned_examples <- list_examples few_shot_dataset ;;
    collected <- few_shot_loop 0 uncleaned_examples [] [] [] ;;
    let '(examples, few_shot_messages, few_shot_three_messages) := collected in
    Return (examples,
            without_system few_shot_messages,
            without_system few_shot_three_messages)
  else Raise (ValueError "Few shot messages not supported for this dataset").

(** [get_prompts]: [None] is what the function falls through to. *)
Definition get_prompts (task_name : string)
    : outcome (option (list (prompt * string))) :=
  if String.eqb task_name few_shot_task then
    p1 <- pull_prompt "langchain-ai/multiverse-math-no-few-shot" ;;
    p2 <- pull_prompt "langchain-ai/multiverse-math-few-shot-messages" ;;
    p3 <- pull_prompt "langchain-ai/multiverse-math-few-shot-str" ;;
    p4 <- pull_prompt "langchain-ai/multiverse-math-few-shot-3-messages" ;;
    p5 <- pull_prompt "langchain-ai/multiverse-math-few-shot-3-str" ;;
    Return (Some [ (p1, "no-few-shot"); (p2, "few-shot-messages");
                   (p3, "few-shot-string"); (p4, "few-shot-three-messages");
                   (p5, "few-shot-three-strings") ])
  else Return None.

End Script.

Arguments outputs_output {raw} _.
Arguments few_shot_loop {raw} convert_to_messages i uncleaned_examples
  examples few_shot_messages few_shot_three_messages.
Arguments get_few_shot_messages {raw} convert_to_messages list_examples task_name.
Arguments get_prompts {prompt} pull_prompt task_name.

(** ** Reading the script's strings *)




(** The role a message is rendered under. *)
Definition role_tag (m : Message) : string :=
  match content m with
  | Blocks _ => "assistant"
  | Text _ =>
      match class_of m with
      | HumanMessage => "user"
      | ToolMessage => "tool"
      | _ => "assistant"
      end
  end.

(** The repositories [get_prompts] pulls from, in order. *)
Definition prompt_repositories : list string :=
  [ "langchain-ai/multiverse-math-no-few-shot";
    "langchain-ai/multiverse-math-few-shot-messages";
    "langchain-ai/multiverse-math-few-shot-str";
    "langchain-ai/multiverse-math-few-shot-3-messages";
    "langchain-ai/multiverse-math-few-shot-3-str" ].

(** What one message adds to the string. *)
Definition render_message (m : Message) : outcome string :=
  match content m with
  | Blocks blocks =>
      rendered <- render_blocks EmptyString blocks ;;
      Return (String.append "<|im_start|>assistant"
               (String.append rendered
                 (String.append LF (String.append "<|im_end|>" LF))))
  | Text text =>
      Return (String.append (render_text (class_of m) text) LF)
  end.

(** A chunk opened for a role and closed, with the line feed that follows. *)
Definition framed (role chunk : string) : Prop :=
  exists body,
    chunk = String.append "<|im_start|>"
              (String.append role
                (String.append body
                  (String.append LF (String.append "<|im_end|>" LF)))).

(** What the loop of [get_few_shot_messages] makes of one listed example:
    the conversion of its stored "output" and the entry it appends. *)
Definition collects {raw : Type}
    (convert_to_messages : raw -> outcome (list Message))
    (e : DatasetExample raw) (converted : list Message) (x : few_shot_example)
    : Prop :=
  exists stored second,
    outputs_output e = Some stored /\
    convert_to_messages stored = Return converted /\
    nth_error converted 1 = Some second /\
    x = {| example_question := content second;
           example_messages := without_system converted |}.

(** A message that is not a system message. *)
Definition not_system (m : Message) : Prop := class_of m <> SystemMessage.

(** ** Stub collaborators of the script

    A stored conversation is the message list itself; the client lists a
    fixed dataset and pulls a prompt as its repository name. *)

Module StubScript.

Definition convert_to_messages (stored : list Message) : outcome (list Message) :=
  Return stored.

Definition message (class : message_class) (text : string) : Message :=
  {| class_of := class; content := Text text |}.

Definition tool_call (name : string) (input : list (string * string)) : Message :=
  {| class_of := AIMessage;
     content := Blocks [ DictPart {| block_name := Some name;
                                     block_input := Some input;
                                     block_text := None |} ] |}.

Definition conversation (ask answer : string) : list Message :=
  [ message SystemMessage "You are an agent."; message HumanMessage ask;
    tool_call "add" [("a", "1"); ("b", "2")]; message ToolMessage answer ].

Definition stored (ask answer : string) : DatasetExample (list Message) :=
  {| outputs_output := Some (conversation ask answer) |}.

Definition dataset : list (DatasetExample (list Message)) :=
  [ stored "1 + 2?" "3.3"; stored "2 + 2?" "4.4";
    stored "3 + 2?" "5.5"; stored "4 + 2?" "6.6" ].

Definition list_examples (dataset_name : string)
    : outcome (list (DatasetExample (list Message))) :=
  Return dataset.

Definition pull_prompt (name : string) : outcome string := Return name.

Definition get_few_shot_messages :=
  get_few_shot_messages convert_to_messages list_examples.

End StubScript.

(** ** Further sample inputs *)

Module Sample.

(** A provider that fails on every call. *)
Definition failing_chain_invoke (chat_model : Stub.llm) (answer : option string)
    (result : string) : traced invoke_result :=
  Raise (ProviderError "request timed out").

(** A provider whose calls are not traced. *)
Definition untraced_chain_invoke (chat_model : Stub.llm) (answer : option string)
    (result : string) : traced invoke_result :=
  Return (Stub.reply chat_model, []).

(** A chat model that answers with a list-valued content. *)
Definition listing_chain_invoke (chat_model : Stub.llm) (answer : option string)
    (result : string) : traced invoke_result :=
  Return (MessageResult
            {| class_of := AIMessage;
               content := Blocks [ DictPart {| block_name := None;
                                               block_input := None;
                                               block_text := Some chat_model |} ] |},
          ["run-1"]).

(** A completion model: the chain returns its text, not a message. *)
Definition completing_chain_invoke (chat_model : Stub.llm) (answer : option string)
    (result : string) : traced invoke_result :=
  Return (StringResult chat_model, ["run-1"]).

(** A grading chain that reports 1 exactly when asked "2 + 2?". *)
Definition asking_chain_evaluate (eval_llm : Stub.llm)
    (prompt : option prompt_template) (prediction reference input : string)
    : traced score :=
  Return (IntScore (int (String.eqb input "2 + 2?")), ["run-2"]).

(** A default client that cannot be built. *)
Definition failing_ChatOpenAI (config : ChatOpenAI_config) : outcome Stub.llm :=
  Raise (ProviderError "no API key").

(** [{"actual_steps": steps, "state": state}]. *)
Definition run_with_state (steps : list string) (state : Z) : RunOutputs Z :=
  {| run_intermediate_steps := None; run_actual_steps := Some steps;
     run_state := Some state; run_output := None |}.

(** [{"expected_steps": steps, "state": state}]. *)
Definition example_with_state (steps : list string) (state : Z) : ExampleOutputs Z :=
  {| example_expected_steps := Some steps; example_order_matters := None;
     example_state := Some state; example_reference := None |}.

(** [{"reference": text}]: no expected steps. *)
Definition example_without_steps (text : string) : ExampleOutputs Z :=
  {| example_expected_steps := None; example_order_matters := None;
     example_state := None; example_reference := Some text |}.

Definition run_of (run_outputs : RunOutputs Z) : Run Z :=
  {| outputs := Some run_outputs; inputs := Stub.question "2 + 2?" |}.

Definition run_without_outputs : Run Z :=
  {| outputs := None; inputs := Stub.question "2 + 2?" |}.

Definition example_of (example_outputs : ExampleOutputs Z) : Example Z :=
  {| ex_outputs := Some example_outputs |}.

Definition judge : AgentTrajectoryEvaluator Stub.llm :=
  {| qa_evaluator := Some (QAMathEvaluator "CORRECT");
     output_evaluation := "qa_math_without_question" |}.





End Sample.

(** ** Facts about the built-ins *)

Lemma list_eqb_true_iff (a b : list string) : list_eqb a b = true <-> a = b.
Proof.
  unfold list_eqb. destruct (list_eq_dec string_dec a b); split; congruence.
Qed.

Lemma list_eqb_refl (a : list string) : list_eqb a a = true.
Proof. now apply list_eqb_true_iff. Qed.

Lemma int_one_iff (b : bool) : int b = 1%Z <-> b = true.
Proof. destruct b; simpl; split; congruence. Qed.

Lemma int_zero_iff (b : bool) : int b = 0%Z <-> b = false.
Proof. destruct b; simpl; split; congruence. Qed.

Lemma int_binary (b : bool) : int b = 1%Z \/ int b = 0%Z.
Proof. destruct b; simpl; auto. Qed.

(** [startswith] is the test for a literal prefix. *)
Lemma startswith_iff (s p : string) :
  startswith s p = true <-> exists rest, s = String.append p rest.
Proof.
  unfold startswith. revert s.
  induction p as [|c p IH]; intros s.
  - destruct s; simpl; split; eauto.
  - destruct s as [|d s]; simpl.
    + split; [discriminate | intros [rest H]; discriminate].
    + destruct (ascii_dec c d) as [->|Hne].
      * rewrite IH. split; intros [rest H]; exists rest; congruence.
      * split; [discriminate | intros [rest H]; congruence].
Qed.

(** The order on identifiers is a total order. *)
Lemma ascii_compare_refl (a : ascii) : Ascii.compare a a = Eq.
Proof. unfold Ascii.compare. apply N.compare_refl. Qed.

Lemma string_leb_trans (s1 s2 s3 : string) :
  String.leb s1 s2 = true -> String.leb s2 s3 = true -> String.leb s1 s3 = true.
Proof.
  unfold String.leb. revert s2 s3.
  induction s1 as [|a s1 IH]; intros [|b s2] [|c s3]; simpl; try congruence.
  unfold Ascii.compare.
  destruct (N.compare_spec (N_of_ascii a) (N_of_ascii b)) as [Hab|Hab|Hab];
    try congruence;
    destruct (N.compare_spec (N_of_ascii b) (N_of_ascii c)) as [Hbc|Hbc|Hbc];
    try congruence; intros H1 H2.
  - rewrite Hab, Hbc, N.compare_refl. now apply IH with s2.
  - rewrite Hab. apply N.compare_lt_iff in Hbc. now rewrite Hbc.
  - rewrite <- Hbc. apply N.compare_lt_iff in Hab. now rewrite Hab.
  - assert (Hac : (N_of_ascii a < N_of_ascii c)%N) by lia.
    apply N.compare_lt_iff in Hac. now rewrite Hac.
Qed.

Lemma sorted_StronglySorted (l : list string) :
  StronglySorted (fun x y => is_true (String.leb x y)) (sorted l).
Proof.
  apply StringSort.StronglySorted_sort.
  intros x y z. apply string_leb_trans.
Qed.

Lemma sorted_Permutation (l : list string) : Permutation l (sorted l).
Proof. apply StringSort.Permuted_sort. Qed.

(** Two sorted lists with the same elements are the same list. *)
Lemma StronglySorted_Permutation_eq (l1 l2 : list string) :
  StronglySorted (fun x y => is_true (String.leb x y)) l1 ->
  StronglySorted (fun x y => is_true (String.leb x y)) l2 ->
  Permutation l1 l2 -> l1 = l2.
Proof.
  revert l2. induction l1 as [|a l1 IH]; intros l2 S1 S2 P.
  - now apply Permutation_nil in P.
  - destruct l2 as [|b l2].
    + apply Permutation_sym, Permutation_nil in P. discriminate.
    + apply StronglySorted_inv in S1 as [S1 F1].
      apply StronglySorted_inv in S2 as [S2 F2].
      assert (Hab : a = b).
      { assert (Ia : In a (b :: l2))
          by (apply Permutation_in with (a :: l1); simpl; auto).
        assert (Ib : In b (a :: l1))
          by (apply Permutation_in with (b :: l2);
              [now apply Permutation_sym | simpl; auto]).
        destruct Ia as [->|Ia]; [reflexivity|].
        destruct Ib as [->|Ib]; [reflexivity|].
        rewrite Forall_forall in F1, F2.
        apply String.leb_antisym; [now apply F1 | now apply F2]. }
      subst b. f_equal. apply IH; auto.
      now apply Permutation_cons_inv with a.
Qed.

(** Comparing after sorting is comparing multisets. *)
Lemma sorted_eq_iff_Permutation (a b : list string) :
  sorted a = sorted b <-> Permutation a b.
Proof.
  split; intros H.
  - apply Permutation_trans with (sorted a); [apply sorted_Permutation|].
    rewrite H. apply Permutation_sym, sorted_Permutation.
  - apply StronglySorted_Permutation_eq; try apply sorted_StronglySorted.
    apply Permutation_trans with a; [apply Permutation_sym, sorted_Permutation|].
    apply Permutation_trans with b; [exact H | apply sorted_Permutation].
Qed.

Lemma elementwise_identical_iff (a b : list string) :
  elementwise_identical a b <-> a = b.
Proof.
  split.
  - intros [_ H]. revert b H. induction a as [|x a IH]; intros [|y b] H.
    + reflexivity.
    + specialize (H 0%nat). discriminate.
    + specialize (H 0%nat). discriminate.
    + f_equal.
      * specialize (H 0%nat). simpl in H. congruence.
      * apply IH. intros i. exact (H (S i)).
  - intros ->. split; auto.
Qed.

(** ** Facts about rounding to a float *)

Section Rounding.

Local Open Scope Q_scope.

Lemma pow2_pos (e : Z) : 0 < 2 ^ e.
Proof. apply Qpower_0_lt. reflexivity. Qed.

Lemma pow2_le (a b : Z) : (a <= b)%Z -> 2 ^ a <= 2 ^ b.
Proof. intros H. apply Qpower_le_compat_l; [exact H | discriminate]. Qed.

Lemma pow2_lt (a b : Z) : (a < b)%Z -> 2 ^ a < 2 ^ b.
Proof. intros H. apply Qpower_lt_compat_l; [exact H | reflexivity]. Qed.

Lemma pow2_plus (a b : Z) : 2 ^ (a + b) == 2 ^ a * 2 ^ b.
Proof. apply Qpower_plus. discriminate. Qed.

Lemma pow2_succ (e : Z) : 2 ^ (e + 1) == 2 * 2 ^ e.
Proof. rewrite pow2_plus. change (2 ^ 1) with 2. ring. Qed.

Lemma pow2_log2 (n : Z) :
  (0 < n)%Z ->
  2 ^ Z.log2 n <= inject_Z n /\ inject_Z n < 2 * 2 ^ Z.log2 n.
Proof.
  intros Hn. destruct (Z.log2_spec n Hn) as [Hlo Hhi].
  pose proof (Z.log2_nonneg n) as Hnn.
  rewrite <- pow2_succ.
  change 2 with (inject_Z 2).
  rewrite <- !Zpower_Qpower by lia.
  rewrite <- Zle_Qle, <- Zlt_Qlt.
  replace (Z.log2 n + 1)%Z with (Z.succ (Z.log2 n)) by lia. auto.
Qed.

(** The binade brackets a positive rational between two powers of two. *)
Lemma binade_spec (x : Q) :
  0 < x -> 2 ^ binade x <= x /\ x < 2 ^ (binade x + 1).
Proof.
  intros Hx. unfold binade.
  destruct x as [n m]. cbn [Qnum Qden].
  assert (Hn : (0 < n)%Z).
  { unfold Qlt in Hx. cbn in Hx. lia. }
  destruct (pow2_log2 n Hn) as [Hnlo Hnhi].
  destruct (pow2_log2 (Z.pos m) eq_refl) as [Hmlo Hmhi].
  set (a := Z.log2 n) in *. set (b := Z.log2 (Z.pos m)) in *.
  pose proof (pow2_pos a) as Ha. pose proof (pow2_pos b) as Hb.
  pose proof (pow2_pos (a - b)) as Hd.
  assert (Hab : 2 ^ (a - b) * 2 ^ b == 2 ^ a).
  { rewrite <- pow2_plus. now replace (a - b + b)%Z with a by lia. }
  assert (Hxm : (n # m) * inject_Z (Z.pos m) == inject_Z n).
  { unfold Qeq, Qmult, inject_Z. cbn. lia. }
  set (x := n # m) in *. set (mq := inject_Z (Z.pos m)) in *.
  set (nq := inject_Z n) in *.
  set (A := 2 ^ a) in *. set (B := 2 ^ b) in *. set (D := 2 ^ (a - b)) in *.
  destruct (Qle_bool D x) eqn:Hle.
  - apply Qle_bool_iff in Hle. split; [exact Hle|].
    rewrite pow2_succ. fold D.
    apply Qmult_lt_r with B; [exact Hb|].
    setoid_replace (2 * D * B) with (2 * A) by (rewrite <- Hab; ring).
    apply Qle_lt_trans with (x * mq); [|now rewrite Hxm].
    apply Qmult_le_l; [exact Hx | exact Hmlo].
  - assert (Hlt : x < D).
    { apply Qnot_le_lt. intros H. apply Qle_bool_iff in H. congruence. }
    replace (a - b - 1 + 1)%Z with (a - b)%Z by lia. split; [|exact Hlt].
    assert (Hhalf : 2 * 2 ^ (a - b - 1) == D).
    { rewrite <- pow2_succ. now replace (a - b - 1 + 1)%Z with (a - b)%Z by lia. }
    apply Qlt_le_weak.
    apply Qmult_lt_r with (2 * B); [lra|].
    setoid_replace (2 ^ (a - b - 1) * (2 * B)) with A
      by (rewrite <- Hab, <- Hhalf; ring).
    apply Qle_lt_trans with (x * mq); [now rewrite Hxm|].
    apply Qmult_lt_l; [exact Hx | exact Hmhi].
Qed.

Lemma binade_unique (x : Q) (e : Z) :
  2 ^ e <= x -> x < 2 ^ (e + 1) -> binade x = e.
Proof.
  intros Hlo Hhi.
  assert (Hx : 0 < x) by (apply Qlt_le_trans with (2 ^ e); [apply pow2_pos | exact Hlo]).
  destruct (binade_spec x Hx) as [Blo Bhi].
  destruct (Z.lt_trichotomy (binade x) e) as [H|[H|H]]; [|exact H|].
  - exfalso. assert (2 ^ (binade x + 1) <= 2 ^ e) by (apply pow2_le; lia). lra.
  - exfalso. assert (2 ^ (e + 1) <= 2 ^ binade x) by (apply pow2_le; lia). lra.
Qed.

Lemma binade_comp (x y : Q) : 0 < x -> x == y -> binade x = binade y.
Proof.
  intros Hx Hxy. symmetry. destruct (binade_spec x Hx) as [Blo Bhi].
  apply binade_unique; now rewrite <- Hxy.
Qed.

Lemma binade_mono (x y : Q) : 0 < x -> x <= y -> (binade x <= binade y)%Z.
Proof.
  intros Hx Hxy.
  destruct (binade_spec x Hx) as [Xlo Xhi].
  destruct (binade_spec y) as [Ylo Yhi]; [lra|].
  destruct (Z_le_gt_dec (binade x) (binade y)) as [H|H]; [exact H|].
  exfalso. assert (2 ^ (binade y + 1) <= 2 ^ binade x) by (apply pow2_le; lia).
  lra.
Qed.

Lemma round_half_even_cases (k : Q) :
  let f := Qfloor k in
  (round_half_even k = f /\ k - inject_Z f <= 1 # 2) \/
  (round_half_even k = (f + 1)%Z /\ 1 # 2 <= k - inject_Z f).
Proof.
  intros f. unfold round_half_even. fold f.
  destruct (Qcompare_spec (k - inject_Z f) (1 # 2)) as [H|H|H].
  - destruct (Z.even f); [left | right]; split; auto; rewrite H; apply Qle_refl.
  - left. split; [reflexivity | now apply Qlt_le_weak].
  - right. split; [reflexivity | now apply Qlt_le_weak].
Qed.

Lemma round_half_even_floor (k : Q) :
  (Qfloor k <= round_half_even k <= Qfloor k + 1)%Z.
Proof. destruct (round_half_even_cases k) as [[-> _]|[-> _]]; lia. Qed.

Lemma inject_Z_succ (z : Z) : inject_Z (z + 1) == inject_Z z + 1.
Proof. rewrite inject_Z_plus. reflexivity. Qed.

(** The nearest integer is within one half. *)
Lemma round_half_even_error (k : Q) :
  Qabs (inject_Z (round_half_even k) - k) <= 1 # 2.
Proof.
  pose proof (Qfloor_le k) as Hlo. pose proof (Qlt_floor k) as Hhi.
  rewrite inject_Z_succ in Hhi.
  apply Qabs_case; intros _;
    destruct (round_half_even_cases k) as [[-> H]|[-> H]];
    rewrite ?inject_Z_succ; lra.
Qed.

Lemma round_half_even_comp (k k' : Q) :
  k == k' -> round_half_even k = round_half_even k'.
Proof.
  intros H. unfold round_half_even.
  rewrite (Qfloor_comp k k' H).
  assert (E : k - inject_Z (Qfloor k') == k' - inject_Z (Qfloor k'))
    by now rewrite H.
  now rewrite (Qcompare_comp _ _ E (1 # 2) (1 # 2) (Qeq_refl _)).
Qed.

Lemma round_half_even_mono (k k' : Q) :
  k <= k' -> (round_half_even k <= round_half_even k')%Z.
Proof.
  intros H. pose proof (Qfloor_resp_le k k' H) as Hf.
  destruct (Z.eq_dec (Qfloor k) (Qfloor k')) as [E|NE].
  - unfold round_half_even. rewrite <- E.
    destruct (Qcompare_spec (k - inject_Z (Qfloor k)) (1 # 2)) as [H1|H1|H1];
      destruct (Qcompare_spec (k' - inject_Z (Qfloor k)) (1 # 2)) as [H2|H2|H2];
      try lia; try (destruct (Z.even (Qfloor k)); lia); exfalso; lra.
  - pose proof (round_half_even_floor k). pose proof (round_half_even_floor k').
    lia.
Qed.

Lemma round_half_even_Z (z : Z) : round_half_even (inject_Z z) = z.
Proof.
  unfold round_half_even. rewrite Qfloor_Z.
  destruct (Qcompare_spec (inject_Z z - inject_Z z) (1 # 2)) as [H|H|H];
    [exfalso; lra | reflexivity | exfalso; lra].
Qed.

(** A positive rational scaled by the spacing of its binade has 53 bits. *)
Lemma scaled_bounds (x : Q) :
  0 < x ->
  2 ^ 52 <= x / 2 ^ (binade x - 52) /\ x / 2 ^ (binade x - 52) < 2 ^ 53.
Proof.
  intros Hx. destruct (binade_spec x Hx) as [Hlo Hhi].
  pose proof (pow2_pos (binade x - 52)) as Hu.
  assert (E1 : 2 ^ 52 * 2 ^ (binade x - 52) == 2 ^ binade x).
  { rewrite <- pow2_plus. now replace (52 + (binade x - 52))%Z with (binade x) by lia. }
  assert (E2 : 2 ^ 53 * 2 ^ (binade x - 52) == 2 ^ (binade x + 1)).
  { rewrite <- pow2_plus. now replace (53 + (binade x - 52))%Z with (binade x + 1)%Z by lia. }
  split.
  - apply Qle_shift_div_l; [exact Hu|]. now rewrite E1.
  - apply Qlt_shift_div_r; [exact Hu|]. now rewrite E2.
Qed.

Lemma round_positive_bounds (x : Q) :
  0 < x -> 2 ^ binade x <= round_positive x /\ round_positive x <= 2 ^ (binade x + 1).
Proof.
  intros Hx. destruct (scaled_bounds x Hx) as [Hlo Hhi].
  pose proof (pow2_pos (binade x - 52)) as Hu.
  unfold round_positive.
  set (k := x / 2 ^ (binade x - 52)) in *.
  pose proof (round_half_even_floor k) as [Hf1 Hf2].
  assert (Hfl : (2 ^ 52 <= Qfloor k)%Z).
  { rewrite <- (Qfloor_Z (2 ^ 52)). apply Qfloor_resp_le.
    now rewrite Zpower_Qpower by lia. }
  assert (Hfu : (Qfloor k + 1 <= 2 ^ 53)%Z).
  { assert (H : (Qfloor k < 2 ^ 53)%Z); [|lia].
    rewrite Zlt_Qlt. apply Qle_lt_trans with k; [apply Qfloor_le|].
    now rewrite Zpower_Qpower by lia. }
  assert (E1 : 2 ^ 52 * 2 ^ (binade x - 52) == 2 ^ binade x).
  { rewrite <- pow2_plus. now replace (52 + (binade x - 52))%Z with (binade x) by lia. }
  assert (E2 : 2 ^ 53 * 2 ^ (binade x - 52) == 2 ^ (binade x + 1)).
  { rewrite <- pow2_plus. now replace (53 + (binade x - 52))%Z with (binade x + 1)%Z by lia. }
  split.
  - rewrite <- E1. apply Qmult_le_r; [exact Hu|].
    change 2 with (inject_Z 2). rewrite <- Zpower_Qpower by lia.
    rewrite <- Zle_Qle. lia.
  - rewrite <- E2. apply Qmult_le_r; [exact Hu|].
    change 2 with (inject_Z 2). rewrite <- Zpower_Qpower by lia.
    rewrite <- Zle_Qle. lia.
Qed.

(** Rounding moves a positive rational by at most half the spacing of its
    binade, hence by at most 2^-53 times the rational. *)
Lemma round_positive_error (x : Q) :
  0 < x -> Qabs (round_positive x - x) <= x * 2 ^ (-53).
Proof.
  intros Hx. destruct (binade_spec x Hx) as [Hlo _].
  pose proof (pow2_pos (binade x - 52)) as Hu.
  unfold round_positive.
  set (u := 2 ^ (binade x - 52)) in *.
  set (k := x / u).
  assert (Ek : x == k * u) by (unfold k; field; lra).
  pose proof (round_half_even_error k) as Herr.
  assert (E : inject_Z (round_half_even k) * u - x
              == (inject_Z (round_half_even k) - k) * u) by (rewrite Ek at 1; ring).
  rewrite E, Qabs_Qmult, (Qabs_pos u) by lra.
  apply Qle_trans with ((1 # 2) * u).
  - apply Qmult_le_r; [exact Hu | exact Herr].
  - assert (Eu : (1 # 2) * u == 2 ^ binade x * 2 ^ (-53)).
    { unfold u. rewrite <- pow2_plus.
      replace (binade x + -53)%Z with (-1 + (binade x - 52))%Z by lia.
      rewrite pow2_plus. reflexivity. }
    rewrite Eu. apply Qmult_le_r; [apply pow2_pos | exact Hlo].
Qed.

Lemma round_positive_comp (x y : Q) :
  0 < x -> x == y -> round_positive x = round_positive y.
Proof.
  intros Hx Hxy. unfold round_positive.
  rewrite <- (binade_comp x y Hx Hxy).
  assert (E : round_half_even (x / 2 ^ (binade x - 52))
              = round_half_even (y / 2 ^ (binade x - 52))).
  { apply round_half_even_comp. apply Qdiv_comp; [exact Hxy | reflexivity]. }
  now rewrite E.
Qed.

Lemma round_positive_mono (x y : Q) :
  0 < x -> x <= y -> round_positive x <= round_positive y.
Proof.
  intros Hx Hxy. assert (Hy : 0 < y) by lra.
  pose proof (binade_mono x y Hx Hxy) as He.
  destruct (Z.eq_dec (binade x) (binade y)) as [E|NE].
  - unfold round_positive. rewrite <- E.
    pose proof (pow2_pos (binade x - 52)) as Hu.
    apply Qmult_le_r; [exact Hu|]. rewrite <- Zle_Qle.
    apply round_half_even_mono.
    apply Qmult_le_r with (2 ^ (binade x - 52)); [exact Hu|].
    unfold Qdiv. rewrite <- !Qmult_assoc, (Qmult_comm (/ _)), Qmult_inv_r by lra.
    now rewrite !Qmult_1_r.
  - destruct (round_positive_bounds x Hx) as [_ Hux].
    destruct (round_positive_bounds y Hy) as [Hly _].
    apply Qle_trans with (2 ^ (binade x + 1)); [exact Hux|].
    apply Qle_trans with (2 ^ binade y); [apply pow2_le; lia | exact Hly].
Qed.

(** On the quotients of lengths, which are never negative. *)
Lemma round_double_zero (x : Q) : x == 0 -> round_double x = 0.
Proof. intros H. unfold round_double. apply Qeq_alt in H. now rewrite H. Qed.

Lemma round_double_positive (x : Q) : 0 < x -> round_double x = round_positive x.
Proof. intros H. unfold round_double. apply Qgt_alt in H. now rewrite H. Qed.

Lemma round_double_comp (x y : Q) : 0 <= x -> x == y -> round_double x = round_double y.
Proof.
  intros Hx Hxy. destruct (Qlt_le_dec 0 x) as [Hpos|Hle].
  - rewrite !round_double_positive by lra. now apply round_positive_comp.
  - rewrite !round_double_zero by lra. reflexivity.
Qed.

Lemma round_double_mono (x y : Q) :
  0 <= x -> x <= y -> round_double x <= round_double y.
Proof.
  intros Hx Hxy. destruct (Qlt_le_dec 0 x) as [Hpos|Hle].
  - rewrite !round_double_positive by lra. now apply round_positive_mono.
  - rewrite (round_double_zero x) by lra.
    destruct (Qlt_le_dec 0 y) as [Hy|Hy].
    + rewrite round_double_positive by exact Hy.
      destruct (round_positive_bounds y Hy) as [Hl _].
      pose proof (pow2_pos (binade y)). lra.
    + rewrite (round_double_zero y) by lra. apply Qle_refl.
Qed.

Lemma round_double_error (x : Q) :
  0 <= x -> Qabs (round_double x - x) <= x * 2 ^ (-53).
Proof.
  intros Hx. destruct (Qlt_le_dec 0 x) as [Hpos|Hle].
  - rewrite round_double_positive by exact Hpos. now apply round_positive_error.
  - assert (E : x == 0) by lra.
    rewrite (round_double_zero x E), E. discriminate.
Qed.

(** The rounded value has a significand of at most 53 bits. *)
Lemma round_double_representable (x : Q) :
  0 <= x ->
  exists (r e : Z), (0 <= r <= 2 ^ 53)%Z /\ round_double x == inject_Z r * 2 ^ e.
Proof.
  intros Hx. destruct (Qlt_le_dec 0 x) as [Hpos|Hle].
  - rewrite round_double_positive by exact Hpos.
    exists (round_half_even (x / 2 ^ (binade x - 52))), (binade x - 52)%Z.
    split; [|reflexivity].
    destruct (scaled_bounds x Hpos) as [Hlo Hhi].
    set (k := x / 2 ^ (binade x - 52)) in *.
    pose proof (round_half_even_floor k) as [Hf1 Hf2].
    assert (Hfl : (2 ^ 52 <= Qfloor k)%Z).
    { rewrite <- (Qfloor_Z (2 ^ 52)). apply Qfloor_resp_le.
      now rewrite Zpower_Qpower by lia. }
    assert (H : (Qfloor k < 2 ^ 53)%Z).
    { rewrite Zlt_Qlt. apply Qle_lt_trans with k; [apply Qfloor_le|].
      now rewrite Zpower_Qpower by lia. }
    lia.
  - exists 0%Z, 0%Z. split; [lia|].
    rewrite round_double_zero by lra. reflexivity.
Qed.

Lemma round_half_even_nearest (k : Q) (z : Z) :
  Qabs (inject_Z (round_half_even k) - k) <= Qabs (inject_Z z - k).
Proof.
  pose proof (Qfloor_le k) as Hlo. pose proof (Qlt_floor k) as Hhi.
  rewrite inject_Z_succ in Hhi.
  destruct (Z_le_gt_dec z (Qfloor k)) as [Hz|Hz].
  - assert (Hzq : inject_Z z <= inject_Z (Qfloor k)) by now rewrite <- Zle_Qle.
    apply Qabs_case; intros S1; apply Qabs_case; intros S2;
      destruct (round_half_even_cases k) as [[-> H]|[-> H]];
      rewrite ?inject_Z_succ; lra.
  - assert (Hzq : inject_Z (Qfloor k) + 1 <= inject_Z z).
    { rewrite <- inject_Z_succ, <- Zle_Qle. lia. }
    apply Qabs_case; intros S1; apply Qabs_case; intros S2;
      destruct (round_half_even_cases k) as [[-> H]|[-> H]];
      rewrite ?inject_Z_succ; lra.
Qed.

(** The rounded value is a nearest multiple of the spacing. *)
Lemma round_positive_nearest_multiple (x : Q) (z : Z) :
  0 < x ->
  Qabs (round_positive x - x)
  <= Qabs (inject_Z z * 2 ^ (binade x - 52) - x).
Proof.
  intros Hx. pose proof (pow2_pos (binade x - 52)) as Hu.
  unfold round_positive.
  set (u := 2 ^ (binade x - 52)) in *. set (k := x / u).
  assert (Ek : x == k * u) by (unfold k; field; lra).
  assert (E : forall w : Z, inject_Z w * u - x == (inject_Z w - k) * u)
    by (intros w; rewrite Ek at 1; ring).
  rewrite !E, !Qabs_Qmult, (Qabs_pos u) by lra.
  apply Qmult_le_r; [exact Hu | apply round_half_even_nearest].
Qed.

Lemma representable_multiple (f : Q) (e : Z) :
  representable f -> 2 ^ e <= f ->
  exists z : Z, f == inject_Z z * 2 ^ (e - 52).
Proof.
  intros (r & k & Hr & Hf) Hlo.
  pose proof (pow2_pos e) as He. pose proof (pow2_pos k) as Hk.
  assert (Hrpos : (0 < r)%Z).
  { destruct (Z_lt_le_dec 0 r) as [H|H]; [exact H|]. exfalso.
    assert (Hr0 : inject_Z r <= 0)
      by (change 0 with (inject_Z 0); now rewrite <- Zle_Qle).
    rewrite Hf in Hlo. set (p := 2 ^ k) in *. set (rq := inject_Z r) in *.
    assert (rq * p <= 0 * p) by (apply Qmult_le_compat_r; lra). lra. }
  assert (Hk52 : (e - 52 <= k)%Z).
  { destruct (Z_le_gt_dec (e - 52) k) as [H|H]; [exact H|]. exfalso.
    assert (Hp : 2 ^ k <= 2 ^ (e - 53)) by (apply pow2_le; lia).
    assert (Hr53 : inject_Z r < 2 ^ 53).
    { change 2 with (inject_Z 2). rewrite <- Zpower_Qpower by lia.
      rewrite <- Zlt_Qlt. lia. }
    assert (E : 2 ^ 53 * 2 ^ (e - 53) == 2 ^ e).
    { rewrite <- pow2_plus. now replace (53 + (e - 53))%Z with e by lia. }
    assert (Hrq : 0 < inject_Z r)
      by (change 0 with (inject_Z 0); now rewrite <- Zlt_Qlt).
    pose proof (pow2_pos (e - 53)) as Hp53.
    rewrite Hf, <- E in Hlo.
    set (p := 2 ^ k) in *. set (rq := inject_Z r) in *.
    set (p53 := 2 ^ (e - 53)) in *. set (c := 2 ^ 53) in *.
    assert (rq * p <= rq * p53) by (apply Qmult_le_l; lra).
    assert (rq * p53 < c * p53) by (apply Qmult_lt_r; lra).
    lra. }
  exists (r * 2 ^ (k - (e - 52)))%Z.
  rewrite Hf, inject_Z_mult, Zpower_Qpower by lia.
  change (inject_Z 2) with 2. rewrite <- Qmult_assoc, <- pow2_plus.
  now replace (k - (e - 52) + (e - 52))%Z with k by lia.
Qed.

(** No float is nearer the rational than its rounded value. *)
Lemma round_double_nearest (x f : Q) :
  0 <= x -> representable f ->
  Qabs (round_double x - x) <= Qabs (f - x).
Proof.
  intros Hx Hf. destruct (Qlt_le_dec 0 x) as [Hpos|Hle].
  2:{ assert (E : x == 0) by lra. rewrite (round_double_zero x E), E.
      setoid_replace (0 - 0) with 0 by ring. apply Qabs_nonneg. }
  rewrite round_double_positive by exact Hpos.
  destruct (binade_spec x Hpos) as [Hlo Hhi].
  assert (E1 : inject_Z (2 ^ 52) * 2 ^ (binade x - 52) == 2 ^ binade x).
  { rewrite Zpower_Qpower by lia. change (inject_Z 2) with 2.
    rewrite <- pow2_plus. now replace (52 + (binade x - 52))%Z with (binade x) by lia. }
  assert (E2 : inject_Z (2 ^ 53) * 2 ^ (binade x - 52) == 2 ^ (binade x + 1)).
  { rewrite Zpower_Qpower by lia. change (inject_Z 2) with 2.
    rewrite <- pow2_plus.
    now replace (53 + (binade x - 52))%Z with (binade x + 1)%Z by lia. }
  destruct (Qlt_le_dec f (2 ^ binade x)) as [Hbelow|Hin].
  - apply Qle_trans with (Qabs (inject_Z (2 ^ 52) * 2 ^ (binade x - 52) - x));
      [now apply round_positive_nearest_multiple|].
    rewrite E1. apply Qabs_case; intros S1; apply Qabs_case; intros S2; lra.
  - destruct (Qlt_le_dec (2 ^ (binade x + 1)) f) as [Habove|Hin'].
    + apply Qle_trans with (Qabs (inject_Z (2 ^ 53) * 2 ^ (binade x - 52) - x));
        [now apply round_positive_nearest_multiple|].
      rewrite E2. apply Qabs_case; intros S1; apply Qabs_case; intros S2; lra.
    + destruct (representable_multiple f (binade x) Hf Hin) as [z Hz].
      rewrite Hz. now apply round_positive_nearest_multiple.
Qed.

(** The rounded value is itself a float. *)
Lemma round_double_is_representable (x : Q) :
  0 <= x -> representable (round_double x).
Proof.
  intros Hx. destruct (round_double_representable x Hx) as (r & e & [Hr0 Hr] & Hq).
  destruct (Z.eq_dec r (2 ^ 53)) as [->|Hne].
  - exists (2 ^ 52)%Z, (e + 1)%Z. split; [reflexivity|].
    rewrite Hq, pow2_succ, !Zpower_Qpower by lia. change (inject_Z 2) with 2.
    change (2 ^ 53) with (2 ^ 52 * 2). ring.
  - exists r, e. split; [lia | exact Hq].
Qed.

End Rounding.

Lemma truediv_Return (n m : nat) (q : Q) :
  truediv n m = Return q ->
  (0 < m)%nat /\ q = round_double (Z.of_nat n # Pos.of_nat m).
Proof.
  destruct m; unfold truediv; [discriminate|].
  intros [= <-]. split; [lia | reflexivity].
Qed.

Lemma Zpos_of_nat (m : nat) : (0 < m)%nat -> Z.pos (Pos.of_nat m) = Z.of_nat m.
Proof.
  intros Hm. rewrite <- positive_nat_Z. f_equal. apply Nat2Pos.id. lia.
Qed.

Lemma exact_ratio_Qmake (n m : nat) :
  (0 < m)%nat -> (Z.of_nat n # Pos.of_nat m) == exact_ratio n m.
Proof.
  intros Hm. unfold exact_ratio.
  rewrite (Qmake_Qdiv (Z.of_nat n) (Pos.of_nat m)).
  now rewrite Zpos_of_nat.
Qed.


(** ** Facts about the quotient of two lengths *)

Lemma quotient_nonneg (n m : nat) : 0 <= Z.of_nat n # Pos.of_nat m.
Proof. unfold Qle. cbn. lia. Qed.

Lemma round_double_one : round_double 1 == 1.
Proof. vm_compute. reflexivity. Qed.

Lemma round_double_next_after_one :
  round_double (1 + 2 ^ (-52)) == 1 + 2 ^ (-52).
Proof. vm_compute. reflexivity. Qed.

Lemma round_double_same (n : nat) :
  (0 < n)%nat -> round_double (Z.of_nat n # Pos.of_nat n) == 1.
Proof.
  intros Hn.
  rewrite (round_double_comp (Z.of_nat n # Pos.of_nat n) 1).
  - apply round_double_one.
  - apply quotient_nonneg.
  - unfold Qeq. cbn [Qnum Qden]. rewrite Zpos_of_nat by exact Hn. lia.
Qed.

Lemma round_double_at_least_one (n m : nat) :
  (0 < m)%nat -> (m <= n)%nat ->
  1 <= round_double (Z.of_nat n # Pos.of_nat m).
Proof.
  intros Hm Hle. rewrite <- round_double_one.
  apply round_double_mono; [discriminate|].
  unfold Qle. cbn [Qnum Qden]. rewrite Zpos_of_nat by exact Hm. lia.
Qed.

Lemma round_double_above_one (n m : nat) :
  (0 < m)%nat -> (m < n)%nat -> (Z.of_nat m <= 2 ^ 52)%Z ->
  1 < round_double (Z.of_nat n # Pos.of_nat m).
Proof.
  intros Hm Hlt Hsmall.
  apply Qlt_le_trans with (1 + 2 ^ (-52)); [reflexivity|].
  rewrite <- round_double_next_after_one.
  apply round_double_mono; [discriminate|].
  change (1 + 2 ^ (-52)) with (1 + (1 # (2 ^ 52)%positive)).
  unfold Qle, Qplus. cbn [Qnum Qden]. rewrite Zpos_of_nat by exact Hm.
  change (Z.pos (1 * 2 ^ 52)) with (2 ^ 52)%Z.
  change (1 * Z.pos (2 ^ 52) + 1 * 1)%Z with (2 ^ 52 + 1)%Z.
  nia.
Qed.

(** ** Properties of the evaluators *)

Section Properties.

Variable value : Type.
Variable value_eqb : value -> value -> bool.
Variable llm : Type.
Variable ChatOpenAI : ChatOpenAI_config -> outcome llm.
Variable load_failure : llm -> option prompt_template -> option exn.
Variable chain_invoke : llm -> option string -> string -> traced invoke_result.
Variable qa_chain_evaluate :
  llm -> option prompt_template -> string -> string -> string -> traced score.

Local Abbreviation compare := (compare_outputs value_eqb chain_invoke qa_chain_evaluate).
Local Abbreviation judged_output := (output_results chain_invoke qa_chain_evaluate).
Local Abbreviation evaluate := (evaluate_run value_eqb chain_invoke qa_chain_evaluate).

Implicit Types (ro : RunOutputs value) (eo : ExampleOutputs value)
  (ri : RunInputs) (qa : option (StringEvaluator llm))
  (res : EvaluationResults) (actual expected : list string).

(** A comparator call that returns went through every stage. *)
Lemma compare_outputs_Return ro eo ri qa res :
  compare ro eo ri qa = Return res ->
  exists actual expected q judged,
    extract_actual_steps ro = Return actual /\
    example_expected_steps eo = Some expected /\
    truediv (List.length actual) (List.length expected) = Return q /\
    judged_output ro eo ri qa = Return judged /\
    results res =
      {| key := trajectory_key;
         score_of := IntScore
           (trajectory_score (resolved_order_matters (example_order_matters eo))
                             actual expected);
         comment := Some (String.append "Order matters="
           (str_of_bool (resolved_order_matters (example_order_matters eo))));
         source_run_id := None |}
      :: {| key := ratio_key; score_of := FloatScore q;
            comment := None; source_run_id := None |}
      :: state_results value_eqb ro eo ++ judged.
Proof.
  unfold compare_outputs. intros H.
  destruct (extract_actual_steps ro) as [e|actual] eqn:Ha; [discriminate|].
  destruct (example_expected_steps eo) as [expected|] eqn:He; [|discriminate].
  simpl in H.
  destruct (truediv (List.length actual) (List.length expected)) as [e|q] eqn:Hq;
    [discriminate|].
  simpl in H.
  destruct (judged_output ro eo ri qa) as [e|judged] eqn:Hj; [discriminate|].
  simpl in H. injection H as <-.
  exists actual, expected, q, judged. repeat split; assumption || reflexivity.
Qed.

(** With the steps in place and a non-empty expectation, the comparator
    returns exactly when the judged part does. *)
Lemma compare_outputs_stages ro eo ri qa actual expected :
  extract_actual_steps ro = Return actual ->
  example_expected_steps eo = Some expected ->
  compare ro eo ri qa =
    (step_fraction <- truediv (List.length actual) (List.length expected) ;;
     judged <- judged_output ro eo ri qa ;;
     Return {| results :=
       {| key := trajectory_key;
          score_of := IntScore
            (trajectory_score (resolved_order_matters (example_order_matters eo))
                              actual expected);
          comment := Some (String.append "Order matters="
            (str_of_bool (resolved_order_matters (example_order_matters eo))));
          source_run_id := None |}
       :: {| key := ratio_key; score_of := FloatScore step_fraction;
             comment := None; source_run_id := None |}
       :: state_results value_eqb ro eo ++ judged |}).
Proof.
  intros Ha He. unfold compare_outputs. rewrite Ha, He. simpl.
  destruct (truediv (List.length actual) (List.length expected)); simpl;
    [reflexivity|].
  destruct (judged_output ro eo ri qa); reflexivity.
Qed.

Lemma trajectory_score_found ro eo ri qa actual expected res :
  extract_actual_steps ro = Return actual ->
  example_expected_steps eo = Some expected ->
  compare ro eo ri qa = Return res ->
  find_score trajectory_key res =
    Some (IntScore (trajectory_score
                      (resolved_order_matters (example_order_matters eo))
                      actual expected)).
Proof.
  intros Ha He H.
  apply compare_outputs_Return in H
    as (actual' & expected' & q & judged & Ha' & He' & _ & _ & Hres).
  rewrite Ha in Ha'. rewrite He in He'.
  injection Ha' as <-. injection He' as <-.
  unfold find_score. rewrite Hres. reflexivity.
Qed.

Lemma step_fraction_found ro eo ri qa actual expected res :
  extract_actual_steps ro = Return actual ->
  example_expected_steps eo = Some expected ->
  compare ro eo ri qa = Return res ->
  (0 < List.length expected)%nat /\
  find_score ratio_key res =
    Some (FloatScore (round_double (Z.of_nat (List.length actual)
                                    # Pos.of_nat (List.length expected)))).
Proof.
  intros Ha He H.
  apply compare_outputs_Return in H
    as (actual' & expected' & q & judged & Ha' & He' & Hq & _ & Hres).
  rewrite Ha in Ha'. rewrite He in He'.
  injection Ha' as <-. injection He' as <-.
  apply truediv_Return in Hq as [Hm ->].
  split; [exact Hm|].
  unfold find_score. rewrite Hres. reflexivity.
Qed.

Lemma trajectory_score_ordered actual expected :
  trajectory_score true actual expected = 1%Z <-> actual = expected.
Proof. simpl. rewrite int_one_iff. apply list_eqb_true_iff. Qed.

Lemma trajectory_score_unordered actual expected :
  trajectory_score false actual expected = 1%Z <-> sorted actual = sorted expected.
Proof. simpl. rewrite int_one_iff. apply list_eqb_true_iff. Qed.

Lemma trajectory_score_binary (flag : bool) actual expected :
  trajectory_score flag actual expected = 1%Z \/
  trajectory_score flag actual expected = 0%Z.
Proof. destruct flag; simpl; apply int_binary. Qed.

Lemma trajectory_score_not_one (flag : bool) actual expected :
  trajectory_score flag actual expected <> 1%Z ->
  trajectory_score flag actual expected = 0%Z.
Proof. destruct (trajectory_score_binary flag actual expected); tauto. Qed.

(** *** Trajectory correctness *)

(** C1: for a run and an example the comparator accepts, the score filed
    under "Intermediate steps correctness" is 1 or 0; when the example sets
    [order_matters] to false it is 1 exactly when the two sequences are
    equal after sorting, that is when they hold the same multiset of
    identifiers; otherwise (flag true, or absent and defaulting to true) it
    is 1 exactly when the sequences have the same length and the same
    identifier at every position. *)
Theorem trajectory_correctness_score ro eo ri qa actual expected res :
  extract_actual_steps ro = Return actual ->
  example_expected_steps eo = Some expected ->
  compare ro eo ri qa = Return res ->
  exists s,
    find_score trajectory_key res = Some (IntScore s) /\
    (s = 1 \/ s = 0)%Z /\
    match example_order_matters eo with
    | Some false =>
        (s = 1%Z <-> sorted actual = sorted expected) /\
        (s = 1%Z <-> Permutation actual expected)
    | _ =>
        (s = 1%Z <-> elementwise_identical actual expected) /\
        (s = 1%Z <-> actual = expected)
    end.
Proof.
  intros Ha He H.
  exists (trajectory_score (resolved_order_matters (example_order_matters eo))
                           actual expected).
  split; [now apply trajectory_score_found with ro ri qa|].
  split; [apply trajectory_score_binary|].
  destruct (example_order_matters eo) as [[|]|]; cbn [resolved_order_matters].
  - rewrite elementwise_identical_iff. split; apply trajectory_score_ordered.
  - rewrite <- sorted_eq_iff_Permutation. split; apply trajectory_score_unordered.
  - rewrite elementwise_identical_iff. split; apply trajectory_score_ordered.
Qed.

(** C8: identical sequences score 1 whatever [order_matters] is; sequences
    that are permutations of each other without being identical score 1
    when [order_matters] is false and 0 when it is true or absent. *)
Theorem identical_and_permuted_trajectories ro eo ri qa actual expected res :
  extract_actual_steps ro = Return actual ->
  example_expected_steps eo = Some expected ->
  compare ro eo ri qa = Return res ->
  (actual = expected -> find_score trajectory_key res = Some (IntScore 1)) /\
  (Permutation actual expected -> actual <> expected ->
     find_score trajectory_key res =
       Some (IntScore (match example_order_matters eo with
                       | Some false => 1
                       | _ => 0
                       end))).
Proof.
  intros Ha He H.
  rewrite (trajectory_score_found ro eo ri qa actual expected res Ha He H).
  split.
  - intros ->. do 2 f_equal.
    destruct (resolved_order_matters (example_order_matters eo)); simpl;
      now rewrite list_eqb_refl.
  - intros Hp Hne. do 2 f_equal.
    destruct (example_order_matters eo) as [[|]|]; cbn [resolved_order_matters].
    + apply trajectory_score_not_one. now rewrite trajectory_score_ordered.
    + apply trajectory_score_unordered. now apply sorted_eq_iff_Permutation.
    + apply trajectory_score_not_one. now rewrite trajectory_score_ordered.
Qed.

(** *** Step-count ratio *)

(** C2, as the code has it: the score filed under "# steps / # expected
    steps" is the float nearest the quotient N/M of the number N of actual
    steps by the number M > 0 of expected steps: it is a float, no float is
    nearer N/M, and it differs from N/M by at most 2^-53 times N/M. It is
    not clamped: it is at least 1 when N >= M, and above 1 when N > M (for
    M up to 2^52). Between two evaluations it does not decrease when N
    grows for a fixed M, and does not increase when M grows for a fixed
    N. *)
Theorem step_count_ratio ro eo ri qa ro' eo' ri' qa'
    actual expected actual' expected' res res' :
  extract_actual_steps ro = Return actual ->
  example_expected_steps eo = Some expected ->
  extract_actual_steps ro' = Return actual' ->
  example_expected_steps eo' = Some expected' ->
  compare ro eo ri qa = Return res ->
  compare ro' eo' ri' qa' = Return res' ->
  let N := List.length actual in
  let M := List.length expected in
  let N' := List.length actual' in
  let M' := List.length expected' in
  exists q q',
    find_score ratio_key res = Some (FloatScore q) /\
    find_score ratio_key res' = Some (FloatScore q') /\
    representable q /\
    (forall f, representable f ->
       Qabs (q - exact_ratio N M) <= Qabs (f - exact_ratio N M)) /\
    Qabs (q - exact_ratio N M) <= exact_ratio N M * 2 ^ (-53) /\
    ((M <= N)%nat -> 1 <= q) /\
    ((M < N)%nat -> (Z.of_nat M <= 2 ^ 52)%Z -> 1 < q) /\
    (M = M' -> (N <= N')%nat -> q <= q') /\
    (N = N' -> (M <= M')%nat -> q' <= q).
Proof.
  intros Ha He Ha' He' H H' N M N' M'.
  destruct (step_fraction_found ro eo ri qa actual expected res Ha He H)
    as [HM Hq].
  destruct (step_fraction_found ro' eo' ri' qa' actual' expected' res' Ha' He' H')
    as [HM' Hq'].
  fold N M in HM, Hq. fold N' M' in HM', Hq'.
  exists (round_double (Z.of_nat N # Pos.of_nat M)),
         (round_double (Z.of_nat N' # Pos.of_nat M')).
  split; [exact Hq|]. split; [exact Hq'|].
  pose proof (quotient_nonneg N M) as Hx.
  split; [now apply round_double_is_representable|].
  split; [intros f Hf; rewrite <- (exact_ratio_Qmake N M HM);
          now apply round_double_nearest|].
  split; [rewrite <- (exact_ratio_Qmake N M HM); now apply round_double_error|].
  split; [intros Hle; now apply round_double_at_least_one|].
  split; [intros Hlt Hsmall; now apply round_double_above_one|].
  split.
  - intros <- Hle. apply round_double_mono; [exact Hx|].
    unfold Qle. cbn [Qnum Qden]. nia.
  - intros <- Hle. apply round_double_mono; [apply quotient_nonneg|].
    unfold Qle. cbn [Qnum Qden]. rewrite !Zpos_of_nat by assumption. nia.
Qed.

(** *** The judge without question *)

(** C3, as the code has it: when the model's reply is a message whose
    content is a string, [QAMathEvaluator] returns a score, which is 1
    exactly when that string begins with "CORRECT" and 0 for every other
    string, the empty one included. When the content is a list, or when the
    model is a completion model and the chain returns a bare string, the
    judge raises [AttributeError] and returns no score. *)
Theorem qa_math_verdict (chat_model : llm) (prediction : string)
    (input reference : option string) (result : invoke_result)
    (runs : list string) :
  chain_invoke chat_model reference prediction = Return (result, runs) ->
  (forall class reply,
     result = MessageResult {| class_of := class; content := Text reply |} ->
     exists s,
       _evaluate_strings chain_invoke chat_model prediction input reference
         = Return (IntScore s, runs) /\
       (s = 1 \/ s = 0)%Z /\
       (s = 1%Z <-> exists rest, reply = String.append "CORRECT" rest) /\
       (s = 0%Z <-> ~ exists rest, reply = String.append "CORRECT" rest) /\
       (reply = EmptyString -> s = 0%Z)) /\
  (forall class parts,
     result = MessageResult {| class_of := class; content := Blocks parts |} ->
     _evaluate_strings chain_invoke chat_model prediction input reference
       = Raise (AttributeError "'list' object has no attribute 'startswith'")) /\
  (forall text,
     result = StringResult text ->
     _evaluate_strings chain_invoke chat_model prediction input reference
       = Raise (AttributeError "'str' object has no attribute 'content'")).
Proof.
  intros Hinvoke. unfold _evaluate_strings. rewrite Hinvoke. cbn [bind].
  split; [|split].
  - intros class reply ->. cbn [content_startswith_CORRECT content bind].
    exists (int (startswith reply "CORRECT")).
    split; [destruct (startswith reply "CORRECT"); reflexivity|].
    split; [apply int_binary|].
    split; [rewrite int_one_iff; apply startswith_iff|].
    split.
    + rewrite int_zero_iff, <- startswith_iff.
      destruct (startswith reply "CORRECT"); split; congruence.
    + intros ->. reflexivity.
  - intros class parts ->. reflexivity.
  - intros text ->. reflexivity.
Qed.

(** *** Failures of the comparator *)

(** C4, as the code has it: with a step sequence in the run outputs and an
    empty [expected_steps], the comparator reaches the division of the two
    lengths and fails with the [ZeroDivisionError] that division raises. *)
Theorem empty_expected_steps_division ro eo ri qa actual :
  extract_actual_steps ro = Return actual ->
  example_expected_steps eo = Some [] ->
  truediv (List.length actual) (@List.length string [])
    = Raise (ZeroDivisionError "division by zero") /\
  compare ro eo ri qa = Raise (ZeroDivisionError "division by zero").
Proof.
  intros Ha He. split; [reflexivity|].
  rewrite (compare_outputs_stages ro eo ri qa actual [] Ha He). reflexivity.
Qed.

(** C5: run outputs holding neither "intermediate_steps" nor "actual_steps"
    make the comparator, and the run evaluator on any example, raise the
    [ValueError] whose message names both fields; no result is returned. *)
Theorem missing_step_sequences ro :
  run_intermediate_steps ro = None ->
  run_actual_steps ro = None ->
  (forall eo ri qa,
     compare ro eo ri qa = Raise (ValueError missing_steps_message)) /\
  (forall self (run : Run value) (example : Example value),
     outputs run = Some ro ->
     evaluate self run (Some example) = Raise (ValueError missing_steps_message)) /\
  (exists a b c,
     missing_steps_message =
       String.append a (String.append "intermediate_steps"
         (String.append b (String.append "actual_steps" c)))).
Proof.
  intros Hi Ha. split; [|split].
  - intros eo ri qa. unfold compare_outputs, extract_actual_steps.
    rewrite Hi, Ha. reflexivity.
  - intros self run example Hrun. unfold evaluate_run.
    rewrite Hrun, Hi, Ha. reflexivity.
  - exists "Please make sure that your agent outputs '", " or '", "'".
    reflexivity.
Qed.

Lemma judged_output_missing_reference ro eo ri
    (judge : StringEvaluator llm) (output : string) :
  run_output ro = Some output ->
  example_reference eo = None ->
  judged_output ro eo ri (Some judge) = Raise (KeyError "reference").
Proof.
  intros Ho Hr. unfold output_results. rewrite Ho, Hr.
  destruct judge; reflexivity.
Qed.

(** C6: on run outputs and example outputs that are otherwise valid (a
    step sequence present, a non-empty [expected_steps]), when the run
    outputs carry an "output", a judge is supplied and the example outputs
    hold no "reference", the comparator fails with the [KeyError] naming
    "reference", whichever judge it is and whatever the run inputs hold. *)
Theorem missing_reference ro eo ri (judge : StringEvaluator llm)
    actual expected (output : string) :
  extract_actual_steps ro = Return actual ->
  example_expected_steps eo = Some expected ->
  (0 < List.length expected)%nat ->
  run_output ro = Some output ->
  example_reference eo = None ->
  compare ro eo ri (Some judge) = Raise (KeyError "reference").
Proof.
  intros Ha He Hm Ho Hr.
  rewrite (compare_outputs_stages ro eo ri (Some judge) actual expected Ha He).
  destruct (List.length expected) as [|m]; [lia|].
  unfold truediv. cbn [bind].
  now rewrite (judged_output_missing_reference ro eo ri judge output).
Qed.

(** *** The judged output *)

(** The "correctness" entry can only come from the judged part. *)
Lemma correctness_found ro eo ri qa res judged :
  compare ro eo ri qa = Return res ->
  judged_output ro eo ri qa = Return judged ->
  find_score correctness_key res =
    option_map score_of
      (find (fun r => String.eqb (key r) correctness_key) judged).
Proof.
  intros H Hj.
  apply compare_outputs_Return in H
    as (actual & expected & q & judged' & _ & _ & _ & Hj' & Hres).
  rewrite Hj in Hj'. injection Hj' as <-.
  unfold find_score. rewrite Hres. cbn [find key].
  change (String.eqb trajectory_key correctness_key) with false.
  change (String.eqb ratio_key correctness_key) with false.
  cbv iota. f_equal.
  unfold state_results.
  destruct (run_state ro), (example_state eo); reflexivity.
Qed.

Lemma judged_output_without_judge ro eo ri :
  judged_output ro eo ri None = Return [].
Proof. unfold output_results. destruct (run_output ro); reflexivity. Qed.

(** When the stages before the judged output pass, the comparator returns
    as soon as the judged output does, with its "correctness" entry. *)
Lemma compare_outputs_returns ro eo ri qa actual expected judged :
  extract_actual_steps ro = Return actual ->
  example_expected_steps eo = Some expected ->
  (0 < List.length expected)%nat ->
  judged_output ro eo ri qa = Return judged ->
  exists res,
    compare ro eo ri qa = Return res /\
    find_score correctness_key res =
      option_map score_of
        (find (fun r => String.eqb (key r) correctness_key) judged).
Proof.
  intros Ha He Hm Hj.
  assert (Hres : exists res, compare ro eo ri qa = Return res).
  { rewrite (compare_outputs_stages ro eo ri qa actual expected Ha He).
    destruct (List.length expected) as [|m]; [lia|].
    unfold truediv. cbn [bind]. rewrite Hj. cbn [bind]. eauto. }
  destruct Hres as [res Hres]. exists res. split; [exact Hres|].
  now apply correctness_found with ro eo ri qa.
Qed.

(** C7: with mode "none", handing a model to the constructor raises the
    [ValueError] "If output_evaluation is 'none', then eval_llm must be
    None" and no evaluator is built; with no model the constructor returns
    an evaluator without judge, whose evaluations append no judged output
    and file nothing under "correctness". *)
Theorem judging_mode_none :
  (forall given : llm,
     __init__ ChatOpenAI load_failure (Some given) "none"
       = Raise (ValueError conflicting_judge_message)) /\
  __init__ ChatOpenAI load_failure None "none"
    = Return {| qa_evaluator := None; output_evaluation := "none" |} /\
  (forall self ro eo ri,
     __init__ ChatOpenAI load_failure None "none" = Return self ->
     judged_output ro eo ri (qa_evaluator self) = Return [] /\
     forall res,
       compare ro eo ri (qa_evaluator self) = Return res ->
       find_score correctness_key res = None).
Proof.
  split; [reflexivity|]. split; [reflexivity|].
  intros self ro eo ri Hinit.
  cbv in Hinit. injection Hinit as <-. cbn [qa_evaluator].
  split; [apply judged_output_without_judge|].
  intros res H.
  now rewrite (correctness_found ro eo ri None res []
                 H (judged_output_without_judge ro eo ri)).
Qed.

(** C10: with an "output" in the run outputs, a question-aware judge makes
    the comparator read "question" from the run inputs: every call whose
    run inputs lack it fails (with the [KeyError] naming "question" once
    the earlier stages pass); when the question is there and the judge
    answers for the output, the reference and that question, the comparator
    returns and files the judge's score, and a call that returns has filed
    such a score. With [QAMathEvaluator] the run inputs have no influence on
    the outcome; the chain is invoked on the reference and the output alone,
    and when it answers, the comparator returns and files its verdict
    whatever the run inputs hold. *)
Theorem question_only_for_question_aware_judges ro eo (output : string) :
  run_output ro = Some output ->
  (forall eval_llm prompt ri,
     inputs_question ri = None ->
     exists e, compare ro eo ri (Some (QAEvalChain eval_llm prompt)) = Raise e) /\
  (forall eval_llm prompt ri actual expected reference,
     extract_actual_steps ro = Return actual ->
     example_expected_steps eo = Some expected ->
     (0 < List.length expected)%nat ->
     example_reference eo = Some reference ->
     inputs_question ri = None ->
     compare ro eo ri (Some (QAEvalChain eval_llm prompt))
       = Raise (KeyError "question")) /\
  (forall eval_llm prompt ri res,
     compare ro eo ri (Some (QAEvalChain eval_llm prompt)) = Return res ->
     exists reference question s runs,
       example_reference eo = Some reference /\
       inputs_question ri = Some question /\
       qa_chain_evaluate eval_llm prompt output reference question
         = Return (s, runs) /\
       find_score correctness_key res = Some s) /\
  (forall eval_llm prompt ri actual expected reference question s run0 runs,
     extract_actual_steps ro = Return actual ->
     example_expected_steps eo = Some expected ->
     (0 < List.length expected)%nat ->
     example_reference eo = Some reference ->
     inputs_question ri = Some question ->
     qa_chain_evaluate eval_llm prompt output reference question
       = Return (s, run0 :: runs) ->
     exists res,
       compare ro eo ri (Some (QAEvalChain eval_llm prompt)) = Return res /\
       find_score correctness_key res = Some s) /\
  (forall chat_model ri ri',
     compare ro eo ri (Some (QAMathEvaluator chat_model))
       = compare ro eo ri' (Some (QAMathEvaluator chat_model))) /\
  (forall chat_model ri res,
     compare ro eo ri (Some (QAMathEvaluator chat_model)) = Return res ->
     exists reference result runs verdict,
       example_reference eo = Some reference /\
       chain_invoke chat_model (Some reference) output = Return (result, runs) /\
       content_startswith_CORRECT result = Return verdict /\
       find_score correctness_key res = Some (IntScore (int verdict))) /\
  (forall chat_model ri actual expected reference result verdict run0 runs,
     extract_actual_steps ro = Return actual ->
     example_expected_steps eo = Some expected ->
     (0 < List.length expected)%nat ->
     example_reference eo = Some reference ->
     chain_invoke chat_model (Some reference) output
       = Return (result, run0 :: runs) ->
     content_startswith_CORRECT result = Return verdict ->
     exists res,
       compare ro eo ri (Some (QAMathEvaluator chat_model)) = Return res /\
       find_score correctness_key res = Some (IntScore (int verdict))).
Proof.
  intros Ho.
  assert (Hfail : forall eval_llm prompt ri,
             inputs_question ri = None ->
             exists e, judged_output ro eo ri (Some (QAEvalChain eval_llm prompt))
                       = Raise e).
  { intros eval_llm prompt ri Hq. unfold output_results. rewrite Ho, Hq.
    destruct (example_reference eo); simpl; eauto. }
  split; [|split; [|split; [|split; [|split; [|split]]]]].
  - intros eval_llm prompt ri Hq.
    destruct (Hfail eval_llm prompt ri Hq) as [e He].
    destruct (compare ro eo ri (Some (QAEvalChain eval_llm prompt)))
      as [e'|res] eqn:H; [eauto|].
    apply compare_outputs_Return in H
      as (actual & expected & q & judged & _ & _ & _ & Hj & _).
    congruence.
  - intros eval_llm prompt ri actual expected reference Ha He Hm Hr Hq.
    rewrite (compare_outputs_stages ro eo ri _ actual expected Ha He).
    destruct (List.length expected) as [|m]; [lia|].
    unfold truediv. cbn [bind].
    unfold output_results. rewrite Ho, Hr, Hq. reflexivity.
  - intros eval_llm prompt ri res H.
    destruct (judged_output ro eo ri (Some (QAEvalChain eval_llm prompt)))
      as [e|judged] eqn:Hj.
    { apply compare_outputs_Return in H
        as (actual & expected & q & judged & _ & _ & _ & Hj' & _).
      congruence. }
    rewrite (correctness_found ro eo ri _ res judged H Hj).
    unfold output_results in Hj. rewrite Ho in Hj.
    destruct (example_reference eo) as [reference|]; [|discriminate].
    destruct (inputs_question ri) as [question|]; [|discriminate].
    simpl in Hj.
    destruct (qa_chain_evaluate eval_llm prompt output reference question)
      as [e|[s runs]] eqn:Hcall; [discriminate|].
    simpl in Hj. destruct runs as [|r runs]; [discriminate|].
    simpl in Hj. injection Hj as <-.
    exists reference, question, s, (r :: runs). auto.
  - intros eval_llm prompt ri actual expected reference question s run0 runs
      Ha He Hm Hr Hq Hcall.
    destruct (compare_outputs_returns ro eo ri
                (Some (QAEvalChain eval_llm prompt)) actual expected
                [ {| key := "correctness"; score_of := s;
                     comment := None; source_run_id := Some run0 |} ]
                Ha He Hm) as (res & Hres & Hfound).
    { unfold output_results. rewrite Ho, Hr, Hq. cbn [subscript bind].
      rewrite Hcall. reflexivity. }
    exists res. split; [exact Hres | exact Hfound].
  - intros chat_model ri ri'. unfold compare_outputs, output_results.
    rewrite Ho. reflexivity.
  - intros chat_model ri res H.
    destruct (judged_output ro eo ri (Some (QAMathEvaluator chat_model)))
      as [e|judged] eqn:Hj.
    { apply compare_outputs_Return in H
        as (actual & expected & q & judged & _ & _ & _ & Hj' & _).
      congruence. }
    rewrite (correctness_found ro eo ri _ res judged H Hj).
    unfold output_results in Hj. rewrite Ho in Hj.
    destruct (example_reference eo) as [reference|]; [|discriminate].
    simpl in Hj.
    unfold evaluate_strings_without_input, _evaluate_strings in Hj.
    destruct (chain_invoke chat_model (Some reference) output)
      as [e|[result runs]] eqn:Hcall; [discriminate|].
    cbn [bind] in Hj.
    destruct (content_startswith_CORRECT result) as [e|verdict] eqn:Hv;
      [discriminate|].
    exists reference, result, runs, verdict.
    split; [reflexivity|]. split; [exact Hcall|]. split; [exact Hv|].
    destruct verdict; cbn [bind] in Hj;
      (destruct runs as [|r runs]; [discriminate|]);
      cbn [bind] in Hj; injection Hj as <-; reflexivity.
  - intros chat_model ri actual expected reference result verdict run0 runs
      Ha He Hm Hr Hcall Hv.
    destruct (compare_outputs_returns ro eo ri
                (Some (QAMathEvaluator chat_model)) actual expected
                [ {| key := "correctness"; score_of := IntScore (int verdict);
                     comment := None; source_run_id := Some run0 |} ]
                Ha He Hm) as (res & Hres & Hfound).
    { unfold output_results, evaluate_strings_without_input, _evaluate_strings.
      rewrite Ho, Hr. cbn [subscript bind]. rewrite Hcall. cbn [bind].
      rewrite Hv. cbn [bind]. destruct verdict; reflexivity. }
    exists res. split; [exact Hres | exact Hfound].
Qed.

(** *** Observations *)

(** C9: two run outputs whose "intermediate_steps" carry the same sequence
    of tool identifiers get the same trajectory-correctness and step-count
    scores against an example, whatever the observations are; if the two
    records also agree on "state" and "output", the whole outcome of the
    comparator is the same. *)
Theorem observations_do_not_influence ro1 ro2
    (steps1 steps2 : list (AgentAction * value)) eo :
  run_intermediate_steps ro1 = Some steps1 ->
  run_intermediate_steps ro2 = Some steps2 ->
  tools_of steps1 = tools_of steps2 ->
  (forall ri1 ri2 qa1 qa2 res1 res2,
     compare ro1 eo ri1 qa1 = Return res1 ->
     compare ro2 eo ri2 qa2 = Return res2 ->
     find_score trajectory_key res1 = find_score trajectory_key res2 /\
     find_score ratio_key res1 = find_score ratio_key res2) /\
  (run_state ro1 = run_state ro2 ->
   run_output ro1 = run_output ro2 ->
   forall ri qa, compare ro1 eo ri qa = compare ro2 eo ri qa).
Proof.
  intros H1 H2 Htools.
  assert (E1 : extract_actual_steps ro1 = Return (tools_of steps1))
    by (unfold extract_actual_steps; now rewrite H1).
  assert (E2 : extract_actual_steps ro2 = Return (tools_of steps1))
    by (unfold extract_actual_steps; rewrite H2, Htools; reflexivity).
  split.
  - intros ri1 ri2 qa1 qa2 res1 res2 R1 R2.
    destruct (example_expected_steps eo) as [expected|] eqn:He.
    + rewrite (trajectory_score_found ro1 eo ri1 qa1 _ expected res1 E1 He R1).
      rewrite (trajectory_score_found ro2 eo ri2 qa2 _ expected res2 E2 He R2).
      destruct (step_fraction_found ro1 eo ri1 qa1 _ expected res1 E1 He R1)
        as [_ ->].
      destruct (step_fraction_found ro2 eo ri2 qa2 _ expected res2 E2 He R2)
        as [_ ->].
      split; reflexivity.
    + apply compare_outputs_Return in R1
        as (a & e & q & j & _ & He' & _). congruence.
  - intros Hs Hout ri qa.
    unfold compare_outputs, state_results, output_results.
    rewrite E1, E2, Hs, Hout. reflexivity.
Qed.

End Properties.

(** ** Worked evaluations *)

Lemma trajectory_correctness_score_witness :
  extract_actual_steps (Stub.run_with_steps ["b"; "a"]) = Return ["b"; "a"] /\
  example_expected_steps (Stub.example_with_steps ["a"; "b"] (Some false))
    = Some ["a"; "b"] /\
  exists res,
    Stub.compare_outputs (Stub.run_with_steps ["b"; "a"])
      (Stub.example_with_steps ["a"; "b"] (Some false)) Stub.no_inputs None
      = Return res /\
    exists s,
      find_score trajectory_key res = Some (IntScore s) /\
      (s = 1 \/ s = 0)%Z /\
      (s = 1%Z <-> sorted ["b"; "a"] = sorted ["a"; "b"]) /\
      (s = 1%Z <-> Permutation ["b"; "a"] ["a"; "b"]).
Proof.
  split; [reflexivity|]. split; [reflexivity|].
  eexists. split; [vm_compute; reflexivity|].
  exact (trajectory_correctness_score Z Z.eqb Stub.llm
           Stub.chain_invoke Stub.qa_chain_evaluate
           (Stub.run_with_steps ["b"; "a"])
           (Stub.example_with_steps ["a"; "b"] (Some false))
           Stub.no_inputs None ["b"; "a"] ["a"; "b"] _
           eq_refl eq_refl eq_refl).
Defined.

Lemma identical_and_permuted_trajectories_witness :
  extract_actual_steps (Stub.run_with_steps ["b"; "a"]) = Return ["b"; "a"] /\
  example_expected_steps (Stub.example_with_steps ["a"; "b"] None)
    = Some ["a"; "b"] /\
  Permutation ["b"; "a"] ["a"; "b"] /\
  ["b"; "a"] <> ["a"; "b"] /\
  exists res,
    Stub.compare_outputs (Stub.run_with_steps ["b"; "a"])
      (Stub.example_with_steps ["a"; "b"] None) Stub.no_inputs None
      = Return res /\
    find_score trajectory_key res = Some (IntScore 0).
Proof.
  split; [reflexivity|]. split; [reflexivity|].
  split; [apply perm_swap|]. split; [discriminate|].
  eexists. split; [vm_compute; reflexivity|].
  refine (proj2 (identical_and_permuted_trajectories Z Z.eqb Stub.llm
           Stub.chain_invoke Stub.qa_chain_evaluate
           (Stub.run_with_steps ["b"; "a"])
           (Stub.example_with_steps ["a"; "b"] None)
           Stub.no_inputs None ["b"; "a"] ["a"; "b"] _
           eq_refl eq_refl eq_refl) _ _).
  - apply perm_swap.
  - discriminate.
Defined.

Lemma step_count_ratio_witness :
  exists res res',
    Stub.compare_outputs (Stub.run_with_steps ["a"; "b"; "c"])
      (Stub.example_with_steps ["a"; "b"] None) Stub.no_inputs None
      = Return res /\
    Stub.compare_outputs (Stub.run_with_steps ["a"])
      (Stub.example_with_steps ["a"; "b"] None) Stub.no_inputs None
      = Return res' /\
    exists q q',
      find_score ratio_key res = Some (FloatScore q) /\
      find_score ratio_key res' = Some (FloatScore q') /\
      representable q /\
      Qabs (q - exact_ratio 3 2) <= exact_ratio 3 2 * 2 ^ (-53) /\
      1 < q /\ q' <= q.
Proof.
  eexists. eexists.
  split; [vm_compute; reflexivity|]. split; [vm_compute; reflexivity|].
  destruct (step_count_ratio Z Z.eqb Stub.llm
              Stub.chain_invoke Stub.qa_chain_evaluate
              (Stub.run_with_steps ["a"])
              (Stub.example_with_steps ["a"; "b"] None) Stub.no_inputs None
              (Stub.run_with_steps ["a"; "b"; "c"])
              (Stub.example_with_steps ["a"; "b"] None) Stub.no_inputs None
              ["a"] ["a"; "b"] ["a"; "b"; "c"] ["a"; "b"] _ _
              eq_refl eq_refl eq_refl eq_refl eq_refl eq_refl)
    as (q' & q & Hq' & Hq & _ & _ & _ & _ & _ & Hle & _).
  destruct (step_count_ratio Z Z.eqb Stub.llm
              Stub.chain_invoke Stub.qa_chain_evaluate
              (Stub.run_with_steps ["a"; "b"; "c"])
              (Stub.example_with_steps ["a"; "b"] None) Stub.no_inputs None
              (Stub.run_with_steps ["a"; "b"; "c"])
              (Stub.example_with_steps ["a"; "b"] None) Stub.no_inputs None
              ["a"; "b"; "c"] ["a"; "b"] ["a"; "b"; "c"] ["a"; "b"] _ _
              eq_refl eq_refl eq_refl eq_refl eq_refl eq_refl)
    as (q0 & _ & Hq0 & _ & Hrep & Hnear & Herr & _ & Hgt & _).
  assert (E : q0 = q) by congruence. subst q0.
  exists q, q'.
  split; [exact Hq|]. split; [exact Hq'|].
  split; [exact Hrep|]. split; [exact Herr|]. split.
  - apply Hgt; [simpl; lia | discriminate].
  - apply Hle; [reflexivity | simpl; lia].
Defined.

(** C2, counterexample: one actual step against three expected ones. The
    score is the float 0.3333333333333333, which is not the quotient 1/3. *)
Lemma step_count_ratio_counterexample :
  exists res q,
    Stub.compare_outputs (Stub.run_with_steps ["a"])
      (Stub.example_with_steps ["a"; "b"; "c"] None) Stub.no_inputs None
      = Return res /\
    find_score ratio_key res = Some (FloatScore q) /\
    q == 6004799503160661 # 18014398509481984 /\
    ~ q == exact_ratio 1 3.
Proof.
  eexists. eexists.
  split; [vm_compute; reflexivity|]. split; [reflexivity|].
  split; [vm_compute; reflexivity|].
  vm_compute. discriminate.
Defined.


Lemma qa_math_verdict_witness :
  Stub.chain_invoke "CORRECT because equal" (Some "42") "42"
    = Return (Stub.reply "CORRECT because equal", ["run-1"]) /\
  exists s,
    _evaluate_strings Stub.chain_invoke "CORRECT because equal" "42" None (Some "42")
      = Return (IntScore s, ["run-1"]) /\
    (s = 1 \/ s = 0)%Z /\
    (s = 1%Z <-> exists rest, "CORRECT because equal" = String.append "CORRECT" rest) /\
    (s = 0%Z <-> ~ exists rest, "CORRECT because equal" = String.append "CORRECT" rest) /\
    ("CORRECT because equal" = EmptyString -> s = 0%Z).
Proof.
  split; [reflexivity|].
  exact (proj1 (qa_math_verdict Stub.llm Stub.chain_invoke "CORRECT because equal"
                  "42" None (Some "42") (Stub.reply "CORRECT because equal")
                  ["run-1"] eq_refl)
               AIMessage "CORRECT because equal" eq_refl).
Defined.

(** C3, counterexample: a chat model that answers with a list-valued
    content, and a completion model. The judge raises instead of scoring
    the reply 0. *)
Lemma qa_math_verdict_counterexample :
  _evaluate_strings Sample.listing_chain_invoke "INCORRECT" "42" None (Some "42")
    = Raise (AttributeError "'list' object has no attribute 'startswith'") /\
  _evaluate_strings Sample.completing_chain_invoke "INCORRECT" "42" None (Some "42")
    = Raise (AttributeError "'str' object has no attribute 'content'").
Proof. split; reflexivity. Qed.

(** C4, counterexample: one actual step against an empty expectation. The
    comparator has no guard of its own; the failure is the division's. *)
Lemma empty_expected_steps_counterexample :
  example_expected_steps (Stub.example_with_steps [] None) = Some [] /\
  Stub.compare_outputs (Stub.run_with_steps ["search"])
    (Stub.example_with_steps [] None) Stub.no_inputs None
    = Raise (ZeroDivisionError "division by zero") /\
  Stub.compare_outputs (Stub.run_with_steps ["search"])
    (Stub.example_with_steps [] None) Stub.no_inputs None
    = bind (truediv 1 0) (fun _ => Return {| results := [] |}) /\
  forall msg,
    Stub.compare_outputs (Stub.run_with_steps ["search"])
      (Stub.example_with_steps [] None) Stub.no_inputs None
    <> Raise (ValueError msg).
Proof. repeat split. discriminate. Qed.

Lemma empty_expected_steps_division_witness :
  extract_actual_steps (Stub.run_with_steps ["search"]) = Return ["search"] /\
  example_expected_steps (Stub.example_with_steps [] None) = Some [] /\
  truediv (List.length ["search"]) (@List.length string [])
    = Raise (ZeroDivisionError "division by zero") /\
  Stub.compare_outputs (Stub.run_with_steps ["search"])
    (Stub.example_with_steps [] None) Stub.no_inputs None
    = Raise (ZeroDivisionError "division by zero").
Proof.
  split; [reflexivity|]. split; [reflexivity|].
  exact (empty_expected_steps_division Z Z.eqb Stub.llm
           Stub.chain_invoke Stub.qa_chain_evaluate
           (Stub.run_with_steps ["search"]) (Stub.example_with_steps [] None)
           Stub.no_inputs None ["search"] eq_refl eq_refl).
Defined.

Lemma missing_step_sequences_witness :
  run_intermediate_steps (Stub.run_without_steps "4") = None /\
  run_actual_steps (Stub.run_without_steps "4") = None /\
  Stub.compare_outputs (Stub.run_without_steps "4")
    (Stub.example_with_steps ["add"] None) Stub.no_inputs None
    = Raise (ValueError missing_steps_message).
Proof.
  split; [reflexivity|]. split; [reflexivity|].
  exact (proj1 (missing_step_sequences Z Z.eqb Stub.llm
                  Stub.chain_invoke Stub.qa_chain_evaluate
                  (Stub.run_without_steps "4") eq_refl eq_refl)
               (Stub.example_with_steps ["add"] None) Stub.no_inputs None).
Defined.

Lemma missing_reference_witness :
  extract_actual_steps (Stub.run_with_output ["add"] "4") = Return ["add"] /\
  example_expected_steps (Stub.example_with_steps ["add"] None) = Some ["add"] /\
  (0 < List.length ["add"])%nat /\
  run_output (Stub.run_with_output ["add"] "4") = Some "4" /\
  example_reference (Stub.example_with_steps ["add"] None) = None /\
  Stub.compare_outputs (Stub.run_with_output ["add"] "4")
    (Stub.example_with_steps ["add"] None) (Stub.question "2 + 2?")
    (Some (QAMathEvaluator "CORRECT"))
    = Raise (KeyError "reference").
Proof.
  split; [reflexivity|]. split; [reflexivity|]. split; [simpl; lia|].
  split; [reflexivity|]. split; [reflexivity|].
  refine (missing_reference Z Z.eqb Stub.llm
            Stub.chain_invoke Stub.qa_chain_evaluate
            (Stub.run_with_output ["add"] "4")
            (Stub.example_with_steps ["add"] None) (Stub.question "2 + 2?")
            (QAMathEvaluator "CORRECT") ["add"] ["add"] "4"
            eq_refl eq_refl _ eq_refl eq_refl).
  simpl; lia.
Defined.

Lemma judging_mode_none_witness :
  __init__ Stub.ChatOpenAI Stub.load_failure None "none"
    = Return {| qa_evaluator := None; output_evaluation := "none" |} /\
  exists res,
    Stub.compare_outputs (Stub.run_with_output ["add"] "4")
      (Stub.example_with_reference ["add"] "4") (Stub.question "2 + 2?") None
      = Return res /\
    find_score correctness_key res = None.
Proof.
  split; [reflexivity|].
  eexists. split; [vm_compute; reflexivity|].
  exact (proj2 (proj2 (proj2 (judging_mode_none Z Z.eqb Stub.llm Stub.ChatOpenAI
                  Stub.load_failure Stub.chain_invoke Stub.qa_chain_evaluate))
           {| qa_evaluator := None; output_evaluation := "none" |}
           (Stub.run_with_output ["add"] "4")
           (Stub.example_with_reference ["add"] "4") (Stub.question "2 + 2?")
           eq_refl) _ eq_refl).
Defined.

Lemma question_only_for_question_aware_judges_witness :
  run_output (Stub.run_with_output ["add"] "4") = Some "4" /\
  compare_outputs Z.eqb Stub.chain_invoke Sample.asking_chain_evaluate
    (Stub.run_with_output ["add"] "4")
    (Stub.example_with_reference ["add"] "4") Stub.no_inputs
    (Some (QAEvalChain "CORRECT" None))
    = Raise (KeyError "question") /\
  (exists res,
     compare_outputs Z.eqb Stub.chain_invoke Sample.asking_chain_evaluate
       (Stub.run_with_output ["add"] "4")
       (Stub.example_with_reference ["add"] "4") (Stub.question "2 + 2?")
       (Some (QAEvalChain "CORRECT" None))
       = Return res /\
     find_score correctness_key res = Some (IntScore 1)) /\
  (exists res,
     compare_outputs Z.eqb Stub.chain_invoke Sample.asking_chain_evaluate
       (Stub.run_with_output ["add"] "4")
       (Stub.example_with_reference ["add"] "4") (Stub.question "3 + 3?")
       (Some (QAEvalChain "CORRECT" None))
       = Return res /\
     find_score correctness_key res = Some (IntScore 0)) /\
  (exists res,
     compare_outputs Z.eqb Stub.chain_invoke Sample.asking_chain_evaluate
       (Stub.run_with_output ["add"] "4")
       (Stub.example_with_reference ["add"] "4") Stub.no_inputs
       (Some (QAMathEvaluator "CORRECT"))
       = Return res /\
     find_score correctness_key res = Some (IntScore 1)).
Proof.
  split; [reflexivity|].
  pose proof (question_only_for_question_aware_judges Z Z.eqb Stub.llm
                Stub.chain_invoke Sample.asking_chain_evaluate
                (Stub.run_with_output ["add"] "4")
                (Stub.example_with_reference ["add"] "4") "4" eq_refl)
    as (_ & Hmissing & _ & Hasked & _ & _ & Hmath).
  split; [|split; [|split]].
  - refine (Hmissing "CORRECT" None Stub.no_inputs ["add"] ["add"] "4"
              eq_refl eq_refl _ eq_refl eq_refl).
    simpl; lia.
  - refine (Hasked "CORRECT" None (Stub.question "2 + 2?") ["add"] ["add"]
              "4" "2 + 2?" (IntScore 1) "run-2" []
              eq_refl eq_refl _ eq_refl eq_refl eq_refl).
    simpl; lia.
  - refine (Hasked "CORRECT" None (Stub.question "3 + 3?") ["add"] ["add"]
              "4" "3 + 3?" (IntScore 0) "run-2" []
              eq_refl eq_refl _ eq_refl eq_refl eq_refl).
    simpl; lia.
  - refine (Hmath "CORRECT" Stub.no_inputs ["add"] ["add"] "4"
              (Stub.reply "CORRECT") true "run-1" []
              eq_refl eq_refl _ eq_refl eq_refl eq_refl).
    simpl; lia.
Defined.

Lemma observations_do_not_influence_witness :
  run_intermediate_steps
    (Stub.run_with_pairs [(Stub.action "add", 4%Z); (Stub.action "mul", 8%Z)])
    = Some [(Stub.action "add", 4%Z); (Stub.action "mul", 8%Z)] /\
  run_intermediate_steps
    (Stub.run_with_pairs [(Stub.action "add", 0%Z); (Stub.action "mul", (-1)%Z)])
    = Some [(Stub.action "add", 0%Z); (Stub.action "mul", (-1)%Z)] /\
  tools_of [(Stub.action "add", 4%Z); (Stub.action "mul", 8%Z)]
    = tools_of [(Stub.action "add", 0%Z); (Stub.action "mul", (-1)%Z)] /\
  Stub.compare_outputs
    (Stub.run_with_pairs [(Stub.action "add", 4%Z); (Stub.action "mul", 8%Z)])
    (Stub.example_with_steps ["add"; "mul"] None) Stub.no_inputs None
  = Stub.compare_outputs
      (Stub.run_with_pairs [(Stub.action "add", 0%Z); (Stub.action "mul", (-1)%Z)])
      (Stub.example_with_steps ["add"; "mul"] None) Stub.no_inputs None.
Proof.
  split; [reflexivity|]. split; [reflexivity|]. split; [reflexivity|].
  exact (proj2 (observations_do_not_influence Z Z.eqb Stub.llm
                  Stub.chain_invoke Stub.qa_chain_evaluate
                  (Stub.run_with_pairs
                     [(Stub.action "add", 4%Z); (Stub.action "mul", 8%Z)])
                  (Stub.run_with_pairs
                     [(Stub.action "add", 0%Z); (Stub.action "mul", (-1)%Z)])
                  _ _ (Stub.example_with_steps ["add"; "mul"] None)
                  eq_refl eq_refl eq_refl)
               eq_refl eq_refl Stub.no_inputs None).
Defined.

(** ** Further properties of the comparator *)

Section Comparator.

Variable value : Type.
Variable value_eqb : value -> value -> bool.
Variable llm : Type.
Variable chain_invoke : llm -> option string -> string -> traced invoke_result.
Variable qa_chain_evaluate :
  llm -> option prompt_template -> string -> string -> string -> traced score.

Local Abbreviation compare := (compare_outputs value_eqb chain_invoke qa_chain_evaluate).
Local Abbreviation judged_output := (output_results chain_invoke qa_chain_evaluate).

Implicit Types (ro : RunOutputs value) (eo : ExampleOutputs value)
  (ri : RunInputs) (qa : option (StringEvaluator llm))
  (res : EvaluationResults) (actual expected : list string).

Lemma judged_output_keys ro eo ri qa judged :
  judged_output ro eo ri qa = Return judged ->
  map key judged =
    match run_output ro, qa with
    | Some _, Some _ => [correctness_key]
    | _, _ => []
    end.
Proof.
  unfold output_results.
  destruct (run_output ro) as [output|]; [|intros [= <-]; reflexivity].
  destruct qa as [judge|]; [|intros [= <-]; reflexivity].
  match goal with |- (qa_results <- ?call ;; _) = _ -> _ =>
    destruct call as [e|[s runs]]; [discriminate|] end.
  simpl. destruct runs as [|r runs]; [discriminate|].
  simpl. intros [= <-]. reflexivity.
Qed.

Lemma state_results_keys ro eo :
  map key (state_results value_eqb ro eo) =
    match run_state ro, example_state eo with
    | Some _, Some _ => [state_key]
    | _, _ => []
    end.
Proof.
  unfold state_results.
  destruct (run_state ro), (example_state eo); reflexivity.
Qed.

(** X1: a returned collection holds, in this order, the trajectory entry,
    the step-ratio entry, the final-state entry exactly when both records
    carry a "state", and the "correctness" entry exactly when the run
    outputs carry an "output" and a judge is supplied. *)
Theorem results_keys ro eo ri qa res :
  compare ro eo ri qa = Return res ->
  map key (results res) =
    [trajectory_key; ratio_key]
    ++ match run_state ro, example_state eo with
       | Some _, Some _ => [state_key]
       | _, _ => []
       end
    ++ match run_output ro, qa with
       | Some _, Some _ => [correctness_key]
       | _, _ => []
       end.
Proof.
  intros H.
  apply compare_outputs_Return in H
    as (actual & expected & q & judged & _ & _ & _ & Hj & ->).
  cbn [map key app]. rewrite map_app, state_results_keys.
  now rewrite (judged_output_keys ro eo ri qa judged Hj).
Qed.

Lemma trajectory_score_one_length (flag : bool) actual expected :
  trajectory_score flag actual expected = 1%Z ->
  List.length actual = List.length expected.
Proof.
  destruct flag.
  - rewrite trajectory_score_ordered. now intros ->.
  - rewrite trajectory_score_unordered, sorted_eq_iff_Permutation.
    apply Permutation_length.
Qed.

(** X2: whenever the trajectory is scored correct, with or without regard
    for order, the step-count ratio is 1. *)
Theorem correct_trajectory_has_ratio_one ro eo ri qa res :
  compare ro eo ri qa = Return res ->
  find_score trajectory_key res = Some (IntScore 1) ->
  exists q, find_score ratio_key res = Some (FloatScore q) /\ q == 1.
Proof.
  intros H Hs.
  destruct (compare_outputs_Return _ _ _ _ _ ro eo ri qa res H)
    as (actual & expected & q & judged & Ha & He & _ & _ & _).
  rewrite (trajectory_score_found _ _ _ _ _ ro eo ri qa actual expected res Ha He H)
    in Hs.
  injection Hs as Hs. apply trajectory_score_one_length in Hs.
  destruct (step_fraction_found _ _ _ _ _ ro eo ri qa actual expected res Ha He H)
    as [Hm Hq].
  eexists. split; [exact Hq|].
  rewrite Hs. now apply round_double_same.
Qed.

Lemma trajectory_score_relaxed (flag : bool) actual expected :
  (trajectory_score flag actual expected
   <= trajectory_score false actual expected)%Z.
Proof.
  destruct flag; [|lia].
  destruct (trajectory_score_binary true actual expected) as [H|H];
    [|rewrite H; destruct (trajectory_score_binary false actual expected); lia].
  rewrite H. apply trajectory_score_ordered in H. subst expected.
  assert (E : trajectory_score false actual actual = 1%Z)
    by now apply trajectory_score_unordered.
  rewrite E. lia.
Qed.

(** X3: scoring the same run against the same expected steps with
    [order_matters] set to false never gives a lower trajectory score than
    with any other setting of the flag. *)
Theorem relaxing_order_never_lowers_score ro eo eo' ri ri' qa qa' res res' :
  compare ro eo ri qa = Return res ->
  compare ro eo' ri' qa' = Return res' ->
  example_expected_steps eo = example_expected_steps eo' ->
  example_order_matters eo' = Some false ->
  exists s s',
    find_score trajectory_key res = Some (IntScore s) /\
    find_score trajectory_key res' = Some (IntScore s') /\
    (s <= s')%Z.
Proof.
  intros H H' Hexp Hflag.
  destruct (compare_outputs_Return _ _ _ _ _ ro eo ri qa res H)
    as (actual & expected & q & judged & Ha & He & _ & _ & _).
  assert (He' : example_expected_steps eo' = Some expected) by congruence.
  rewrite (trajectory_score_found _ _ _ _ _ ro eo ri qa actual expected res Ha He H).
  rewrite (trajectory_score_found _ _ _ _ _ ro eo' ri' qa' actual expected res' Ha He' H').
  rewrite Hflag. cbn [resolved_order_matters].
  do 2 eexists. split; [reflexivity|]. split; [reflexivity|].
  apply trajectory_score_relaxed.
Qed.

(** X4: a run that called no tool, scored against any expectation the
    comparator accepts, gets trajectory score 0 and step-count ratio 0. *)
Theorem no_tool_calls_score_zero ro eo ri qa res :
  extract_actual_steps ro = Return [] ->
  compare ro eo ri qa = Return res ->
  find_score trajectory_key res = Some (IntScore 0) /\
  exists q, find_score ratio_key res = Some (FloatScore q) /\ q == 0.
Proof.
  intros Ha H.
  destruct (compare_outputs_Return _ _ _ _ _ ro eo ri qa res H)
    as (actual & expected & q & judged & Ha' & He & _ & _ & _).
  rewrite Ha in Ha'. injection Ha' as <-.
  destruct (step_fraction_found _ _ _ _ _ ro eo ri qa [] expected res Ha He H)
    as [Hm Hq].
  split.
  - rewrite (trajectory_score_found _ _ _ _ _ ro eo ri qa [] expected res Ha He H).
    do 2 f_equal. apply trajectory_score_not_one. intros Hone.
    apply trajectory_score_one_length in Hone. simpl in Hone. lia.
  - eexists. split; [exact Hq|].
    rewrite round_double_zero; [reflexivity|].
    unfold Qeq. cbn [List.length Z.of_nat Qnum Qden]. reflexivity.
Qed.

(** X5: the final-state entry of a returned collection is 1 or 0 according
    to [==] on the two states when both records carry one, and is absent
    otherwise. *)
Theorem final_state_score ro eo ri qa res :
  compare ro eo ri qa = Return res ->
  find_score state_key res =
    match run_state ro, example_state eo with
    | Some state, Some expected_state =>
        Some (IntScore (int (value_eqb state expected_state)))
    | _, _ => None
    end.
Proof.
  intros H.
  apply compare_outputs_Return in H
    as (actual & expected & q & judged & _ & _ & _ & Hj & Hres).
  pose proof (judged_output_keys ro eo ri qa judged Hj) as Hjk.
  unfold find_score. rewrite Hres. cbn [find key].
  change (String.eqb trajectory_key state_key) with false.
  change (String.eqb ratio_key state_key) with false.
  cbv iota. unfold state_results.
  destruct (run_state ro) as [state|], (example_state eo) as [expected_state|];
    try reflexivity; cbn [app];
    destruct (run_output ro), qa; destruct judged as [|j [|j' judged]];
    try discriminate; try reflexivity;
    cbn [map] in Hjk; injection Hjk as Hjk;
    cbn [find]; rewrite Hjk; reflexivity.
Qed.

End Comparator.

(** ** Further properties of the judged output *)

Section Judgement.

Variable value : Type.
Variable value_eqb : value -> value -> bool.
Variable llm : Type.
Variable chain_invoke : llm -> option string -> string -> traced invoke_result.
Variable qa_chain_evaluate :
  llm -> option prompt_template -> string -> string -> string -> traced score.

Local Abbreviation compare := (compare_outputs value_eqb chain_invoke qa_chain_evaluate).
Local Abbreviation judged_output := (output_results chain_invoke qa_chain_evaluate).
Local Abbreviation judge_call := (judge_call chain_invoke qa_chain_evaluate).

Implicit Types (ro : RunOutputs value) (eo : ExampleOutputs value)
  (ri : RunInputs) (qa : option (StringEvaluator llm))
  (res : EvaluationResults) (actual expected : list string).

Lemma judged_output_judge_call ro eo ri (judge : StringEvaluator llm)
    (output : string) :
  run_output ro = Some output ->
  judged_output ro eo ri (Some judge) =
    (qa_results <- judge_call eo ri judge output ;;
     let '(qa_score, traced_runs) := qa_results in
     run0 <- match traced_runs with
             | [] => Raise (IndexError "list index out of range")
             | r :: _ => Return r
             end ;;
     Return [ {| key := correctness_key; score_of := qa_score;
                 comment := None; source_run_id := Some run0 |} ]).
Proof.
  intros Ho. unfold output_results, judge_call. rewrite Ho.
  destruct judge; reflexivity.
Qed.

Lemma compare_outputs_judged ro eo ri qa actual expected :
  extract_actual_steps ro = Return actual ->
  example_expected_steps eo = Some expected ->
  (0 < List.length expected)%nat ->
  forall e, judged_output ro eo ri qa = Raise e -> compare ro eo ri qa = Raise e.
Proof.
  intros Ha He Hm e Hj.
  rewrite (compare_outputs_stages _ _ _ _ _ ro eo ri qa actual expected Ha He).
  destruct (List.length expected) as [|m]; [lia|]. simpl.
  now rewrite Hj.
Qed.

(** X6: once the trajectory part goes through, an error raised by the judge
    call (a provider failure, a missing "reference" or "question") is the
    error the comparator raises; nothing is caught and no result is
    returned. *)
Theorem judge_failure_propagates ro eo ri (judge : StringEvaluator llm)
    actual expected (output : string) (e : exn) :
  extract_actual_steps ro = Return actual ->
  example_expected_steps eo = Some expected ->
  (0 < List.length expected)%nat ->
  run_output ro = Some output ->
  judge_call eo ri judge output = Raise e ->
  compare ro eo ri (Some judge) = Raise e.
Proof.
  intros Ha He Hm Ho Hcall.
  apply compare_outputs_judged with actual expected; try assumption.
  rewrite (judged_output_judge_call ro eo ri judge output Ho), Hcall.
  reflexivity.
Qed.

(** X7: when the judge returns a score but the run collector traced no run
    during the call, the comparator fails with the [IndexError] of
    [traced_runs[0]] instead of returning the score. *)
Theorem untraced_judgement_fails ro eo ri (judge : StringEvaluator llm)
    actual expected (output : string) (s : score) :
  extract_actual_steps ro = Return actual ->
  example_expected_steps eo = Some expected ->
  (0 < List.length expected)%nat ->
  run_output ro = Some output ->
  judge_call eo ri judge output = Return (s, []) ->
  compare ro eo ri (Some judge) = Raise (IndexError "list index out of range").
Proof.
  intros Ha He Hm Ho Hcall.
  apply compare_outputs_judged with actual expected; try assumption.
  rewrite (judged_output_judge_call ro eo ri judge output Ho), Hcall.
  reflexivity.
Qed.

Lemma correctness_result_found ro eo ri qa res judged :
  compare ro eo ri qa = Return res ->
  judged_output ro eo ri qa = Return judged ->
  find_result correctness_key res =
    find (fun r => String.eqb (key r) correctness_key) judged.
Proof.
  intros H Hj.
  apply compare_outputs_Return in H
    as (actual & expected & q & judged' & _ & _ & _ & Hj' & Hres).
  rewrite Hj in Hj'. injection Hj' as <-.
  unfold find_result. rewrite Hres. cbn [find key].
  change (String.eqb trajectory_key correctness_key) with false.
  change (String.eqb ratio_key correctness_key) with false.
  cbv iota. unfold state_results.
  destruct (run_state ro), (example_state eo); reflexivity.
Qed.

(** X8: in a returned collection the "correctness" entry carries the score
    the judge call yielded, the identifier of the first run traced during
    that call as its source, and no comment. *)
Theorem correctness_entry_provenance ro eo ri (judge : StringEvaluator llm)
    (output : string) res :
  run_output ro = Some output ->
  compare ro eo ri (Some judge) = Return res ->
  exists s run0 runs,
    judge_call eo ri judge output = Return (s, run0 :: runs) /\
    find_result correctness_key res =
      Some {| key := correctness_key; score_of := s;
              comment := None; source_run_id := Some run0 |}.
Proof.
  intros Ho H.
  destruct (judged_output ro eo ri (Some judge)) as [e|judged] eqn:Hj.
  { apply compare_outputs_Return in H
      as (actual & expected & q & judged & _ & _ & _ & Hj' & _).
    congruence. }
  rewrite (correctness_result_found ro eo ri _ res judged H Hj).
  rewrite (judged_output_judge_call ro eo ri judge output Ho) in Hj.
  destruct (judge_call eo ri judge output) as [e|[s runs]]; [discriminate|].
  simpl in Hj. destruct runs as [|run0 runs]; [discriminate|].
  simpl in Hj. injection Hj as <-.
  exists s, run0, runs. split; reflexivity.
Qed.

(** X9: the trajectory entry of a returned collection records the resolved
    flag in its comment, "Order matters=True" or "Order matters=False", and
    has no source run. *)
Theorem trajectory_entry_comment ro eo ri qa res :
  compare ro eo ri qa = Return res ->
  exists r,
    find_result trajectory_key res = Some r /\
    comment r =
      Some (if resolved_order_matters (example_order_matters eo)
            then "Order matters=True" else "Order matters=False") /\
    source_run_id r = None.
Proof.
  intros H.
  apply compare_outputs_Return in H
    as (actual & expected & q & judged & _ & _ & _ & _ & Hres).
  unfold find_result. rewrite Hres. cbn [find key].
  change (String.eqb trajectory_key trajectory_key) with true. cbv iota.
  eexists. split; [reflexivity|]. cbn [comment source_run_id].
  split; [|reflexivity].
  destruct (resolved_order_matters (example_order_matters eo)); reflexivity.
Qed.

End Judgement.


(** ** Properties of the run evaluator *)

Section RunEvaluator.

Variable value : Type.
Variable value_eqb : value -> value -> bool.
Variable llm : Type.
Variable ChatOpenAI : ChatOpenAI_config -> outcome llm.
Variable load_failure : llm -> option prompt_template -> option exn.
Variable chain_invoke : llm -> option string -> string -> traced invoke_result.
Variable qa_chain_evaluate :
  llm -> option prompt_template -> string -> string -> string -> traced score.

Local Abbreviation compare := (compare_outputs value_eqb chain_invoke qa_chain_evaluate).
Local Abbreviation evaluate := (evaluate_run value_eqb chain_invoke qa_chain_evaluate).
Local Abbreviation judge_model := (judge_model ChatOpenAI).

Implicit Types (ro : RunOutputs value) (eo : ExampleOutputs value)
  (run : Run value) (ex : Example value)
  (self : AgentTrajectoryEvaluator llm) (res : EvaluationResults).

(** X10: the run evaluator returns a collection exactly when the run has
    outputs, an example with outputs is given, and the comparator returns
    that collection on them with the evaluator's judge and the run's
    inputs; it adds nothing to and drops nothing from what the comparator
    returns. *)
Theorem evaluate_run_returns_iff self run (example : option (Example value)) res :
  evaluate_run value_eqb chain_invoke qa_chain_evaluate self run example = Return res <->
  exists ro ex eo,
    outputs run = Some ro /\ example = Some ex /\ ex_outputs ex = Some eo /\
    compare ro eo (inputs run) (qa_evaluator self) = Return res.
Proof.
  unfold evaluate_run. split.
  - destruct (outputs run) as [ro|] eqn:Hrun; [|discriminate].
    destruct example as [ex|]; [|discriminate].
    destruct (run_intermediate_steps ro), (run_actual_steps ro);
      try discriminate;
      (destruct (ex_outputs ex) as [eo|] eqn:Hex; [|discriminate]);
      (destruct (example_expected_steps eo); [|discriminate]);
      intros H; exists ro, ex, eo; repeat split; assumption.
  - intros (ro & ex & eo & -> & -> & -> & H).
    destruct (compare_outputs_Return _ _ _ _ _ ro eo (inputs run)
                (qa_evaluator self) res H)
      as (actual & expected & q & judged & Ha & He & _).
    rewrite He. unfold extract_actual_steps in Ha.
    destruct (run_intermediate_steps ro), (run_actual_steps ro);
      try discriminate; exact H.
Qed.

(** X11: when the example outputs lack "expected_steps", the run evaluator
    raises the [ValueError] asking for 'expected_steps' for every run whose
    outputs carry a step sequence, whereas the comparator called directly on
    the same records raises [KeyError] on "expected_steps". *)
Theorem missing_expected_steps self run ro ex eo (actual : list string) :
  outputs run = Some ro ->
  extract_actual_steps ro = Return actual ->
  ex_outputs ex = Some eo ->
  example_expected_steps eo = None ->
  evaluate_run value_eqb chain_invoke qa_chain_evaluate self run (Some ex)
    = Raise (ValueError missing_expected_message) /\
  compare ro eo (inputs run) (qa_evaluator self) = Raise (KeyError "expected_steps").
Proof.
  intros Hrun Ha Hex He. split.
  - unfold evaluate_run. rewrite Hrun, Hex, He.
    unfold extract_actual_steps in Ha.
    destruct (run_intermediate_steps ro), (run_actual_steps ro);
      try discriminate; reflexivity.
  - unfold compare_outputs. rewrite Ha, He. reflexivity.
Qed.

(** X12: the run evaluator validates in a fixed order. A run without
    outputs is rejected with "Run outputs cannot be None" whatever the
    example is, even an absent one; a run with outputs and no example is
    rejected with "Example cannot be None" whatever the outputs hold, even
    when they lack every step sequence. *)
Theorem evaluate_run_validation_order self run :
  (outputs run = None ->
   forall example,
     evaluate_run value_eqb chain_invoke qa_chain_evaluate self run example
       = Raise (ValueError "Run outputs cannot be None")) /\
  (forall ro,
     outputs run = Some ro ->
     evaluate_run value_eqb chain_invoke qa_chain_evaluate self run None
       = Raise (ValueError "Example cannot be None")).
Proof.
  unfold evaluate_run. split.
  - intros H example. now rewrite H.
  - intros ro H. now rewrite H.
Qed.

Lemma init_Return_cases (eval_llm : option llm) (mode : string) self :
  __init__ ChatOpenAI load_failure eval_llm mode = Return self ->
  (mode = "none" /\ eval_llm = None /\
   self = {| qa_evaluator := None; output_evaluation := "none" |}) \/
  (exists m,
     judge_model eval_llm = Return m /\
     ((mode = "qa" /\ load_failure m None = None /\
       self = {| qa_evaluator := Some (QAEvalChain m None);
                 output_evaluation := "qa" |}) \/
      (mode = "qa_math" /\
       load_failure m (Some QA_TEMPLATE_FOR_MULTIVERSE_MATH) = None /\
       self = {| qa_evaluator :=
                   Some (QAEvalChain m (Some QA_TEMPLATE_FOR_MULTIVERSE_MATH));
                 output_evaluation := "qa_math" |}) \/
      (mode = "qa_math_without_question" /\
       self = {| qa_evaluator := Some (QAMathEvaluator m);
                 output_evaluation := "qa_math_without_question" |}))).
Proof.
  unfold __init__.
  destruct (String.eqb_spec mode "none") as [->|Hnone].
  { destruct eval_llm; [discriminate|]. cbn. intros [= <-]. left. auto. }
  fold (judge_model eval_llm).
  destruct (judge_model eval_llm) as [e|m]; [discriminate|].
  cbn [bind]. intros H. right. exists m. split; [reflexivity|].
  destruct (String.eqb_spec mode "qa") as [->|Hqa].
  { unfold load_evaluator in H.
    destruct (load_failure m None) eqn:Hload; [discriminate|].
    cbn in H. injection H as <-. left. auto. }
  destruct (String.eqb_spec mode "qa_math") as [->|Hmath].
  { unfold load_evaluator in H.
    destruct (load_failure m (Some QA_TEMPLATE_FOR_MULTIVERSE_MATH)) eqn:Hload;
      [discriminate|].
    cbn in H. injection H as <-. right; left. auto. }
  destruct (String.eqb_spec mode "qa_math_without_question") as [->|Hwq].
  { cbn in H. injection H as <-. right; right. auto. }
  discriminate.
Qed.

(** X13: the constructor returns an evaluator in exactly these situations:
    mode "none" without a model (no judge is built, nor any client); and,
    once a model is at hand (the one supplied, or else the default client
    when it can be built), mode "qa" when the QA chain loads, mode "qa_math"
    when the QA chain loads with the multiverse-math prompt, and mode
    "qa_math_without_question", which builds [QAMathEvaluator] on the
    model. The evaluator records the mode it was given. *)
Theorem init_returns_iff (eval_llm : option llm) (mode : string) self :
  __init__ ChatOpenAI load_failure eval_llm mode = Return self <->
  (mode = "none" /\ eval_llm = None /\
   self = {| qa_evaluator := None; output_evaluation := "none" |}) \/
  (exists m,
     judge_model eval_llm = Return m /\
     ((mode = "qa" /\ load_failure m None = None /\
       self = {| qa_evaluator := Some (QAEvalChain m None);
                 output_evaluation := "qa" |}) \/
      (mode = "qa_math" /\
       load_failure m (Some QA_TEMPLATE_FOR_MULTIVERSE_MATH) = None /\
       self = {| qa_evaluator :=
                   Some (QAEvalChain m (Some QA_TEMPLATE_FOR_MULTIVERSE_MATH));
                 output_evaluation := "qa_math" |}) \/
      (mode = "qa_math_without_question" /\
       self = {| qa_evaluator := Some (QAMathEvaluator m);
                 output_evaluation := "qa_math_without_question" |}))).
Proof.
  split; [apply init_Return_cases|].
  intros [(-> & -> & ->)|(m & Hm & Hcases)]; [reflexivity|].
  assert (Hinit : forall mode',
             String.eqb mode' "none" = false ->
             __init__ ChatOpenAI load_failure eval_llm mode' =
             (qa_evaluator <-
                (if String.eqb mode' "qa" then
                   qa_evaluator <- load_evaluator load_failure m None ;;
                   Return (Some qa_evaluator)
                 else if String.eqb mode' "qa_math" then
                   qa_evaluator <-
                     load_evaluator load_failure m
                       (Some QA_TEMPLATE_FOR_MULTIVERSE_MATH) ;;
                   Return (Some qa_evaluator)
                 else if String.eqb mode' "qa_math_without_question" then
                   Return (Some (QAMathEvaluator m))
                 else
                   Raise (ValueError (String.append
                     "output_evaluation must be one of 'qa' or 'none', got "
                     mode'))) ;;
              Return {| qa_evaluator := qa_evaluator;
                        output_evaluation := mode' |})).
  { intros mode' Hmode. unfold __init__. rewrite Hmode.
    fold (judge_model eval_llm). rewrite Hm. reflexivity. }
  destruct Hcases as [(-> & Hload & ->)|[(-> & Hload & ->)|(-> & ->)]];
    rewrite Hinit by reflexivity; cbn [String.eqb Ascii.eqb Bool.eqb];
    unfold load_evaluator; rewrite ?Hload; reflexivity.
Qed.

(** X14: the constructor fails in exactly these situations: mode "none"
    together with a model; any other mode when no model is supplied and the
    default client cannot be built, whose error is raised before the mode
    is looked at further; modes "qa" and "qa_math" when loading the QA chain
    fails; and, once a model is at hand, a mode outside the four supported
    ones, in which case the error quotes the mode. *)
Theorem init_raises_iff (eval_llm : option llm) (mode : string) (e : exn) :
  __init__ ChatOpenAI load_failure eval_llm mode = Raise e <->
  (mode = "none" /\ eval_llm <> None /\
   e = ValueError conflicting_judge_message) \/
  (mode <> "none" /\ judge_model eval_llm = Raise e) \/
  (exists m,
     judge_model eval_llm = Return m /\
     ((mode = "qa" /\ load_failure m None = Some e) \/
      (mode = "qa_math" /\
       load_failure m (Some QA_TEMPLATE_FOR_MULTIVERSE_MATH) = Some e) \/
      (mode <> "none" /\ mode <> "qa" /\ mode <> "qa_math" /\
       mode <> "qa_math_without_question" /\
       e = ValueError (String.append
             "output_evaluation must be one of 'qa' or 'none', got " mode)))).
Proof.
  unfold __init__. fold (judge_model eval_llm).
  destruct (String.eqb_spec mode "none") as [->|Hnone].
  { split.
    - destruct eval_llm; [|discriminate]. cbn. intros [= <-].
      left. repeat split. discriminate.
    - intros [(_ & Hllm & ->)|[(Hne & _)|(m & _ & [(Hq & _)|[(Hq & _)|(Hne & _)]])]];
        try congruence; try discriminate.
      destruct eval_llm; [reflexivity | congruence]. }
  destruct (judge_model eval_llm) as [e'|m] eqn:Hm; cbn [bind].
  { split.
    - intros [= <-]. right; left. auto.
    - intros [(Hq & _)|[(_ & Hraise)|(m & Hret & _)]]; congruence. }
  unfold load_evaluator.
  destruct (String.eqb_spec mode "qa") as [->|Hqa].
  { destruct (load_failure m None) as [e'|] eqn:Hload; cbn [bind].
    - split.
      + intros [= <-]. right; right. exists m. split; [reflexivity|]. left. auto.
      + intros [(Hq & _)|[(_ & Hraise)|(m' & Hret & Hcases)]];
          try congruence; try discriminate.
        injection Hret as <-.
        destruct Hcases as [(_ & He)|[(Hq & _)|(_ & Hq & _)]];
          try congruence; discriminate.
    - split; [discriminate|].
      intros [(Hq & _)|[(_ & Hraise)|(m' & Hret & Hcases)]];
        try congruence; try discriminate.
      injection Hret as <-.
      destruct Hcases as [(_ & He)|[(Hq & _)|(_ & Hq & _)]];
        try congruence; discriminate. }
  destruct (String.eqb_spec mode "qa_math") as [->|Hmath].
  { destruct (load_failure m (Some QA_TEMPLATE_FOR_MULTIVERSE_MATH))
      as [e'|] eqn:Hload; cbn [bind].
    - split.
      + intros [= <-]. right; right. exists m. split; [reflexivity|].
        right; left. auto.
      + intros [(Hq & _)|[(_ & Hraise)|(m' & Hret & Hcases)]];
          try congruence; try discriminate.
        injection Hret as <-.
        destruct Hcases as [(Hq & _)|[(_ & He)|(_ & _ & Hq & _)]];
          try congruence; discriminate.
    - split; [discriminate|].
      intros [(Hq & _)|[(_ & Hraise)|(m' & Hret & Hcases)]];
        try congruence; try discriminate.
      injection Hret as <-.
      destruct Hcases as [(Hq & _)|[(_ & He)|(_ & _ & Hq & _)]];
        try congruence; discriminate. }
  destruct (String.eqb_spec mode "qa_math_without_question") as [->|Hwq].
  { cbn [bind]. split; [discriminate|].
    intros [(Hq & _)|[(_ & Hraise)|(m' & Hret & Hcases)]];
      try congruence; try discriminate.
    destruct Hcases as [(Hq & _)|[(Hq & _)|(_ & _ & _ & Hq & _)]];
      try congruence; discriminate. }
  cbn [bind]. split.
  - intros [= <-]. right; right. exists m. split; [reflexivity|].
    right; right. auto.
  - intros [(Hq & _)|[(_ & Hraise)|(m' & Hret & Hcases)]]; try congruence.
    destruct Hcases as [(Hq & _)|[(Hq & _)|(_ & _ & _ & _ & ->)]];
      try congruence.
Qed.

(** X15: a configuration obtained from [get_eval_config] holds exactly one
    evaluator; it records the requested mode, has no judge exactly in mode
    "none", and its judge does without the question exactly in mode
    "qa_math_without_question". *)
Theorem eval_config_evaluator (eval_llm : option llm) (mode : string)
    (custom_evaluators : list (AgentTrajectoryEvaluator llm)) :
  get_eval_config ChatOpenAI load_failure eval_llm mode
    = Return custom_evaluators ->
  exists self,
    custom_evaluators = [self] /\
    __init__ ChatOpenAI load_failure eval_llm mode = Return self /\
    output_evaluation self = mode /\
    (qa_evaluator self = None <-> mode = "none") /\
    (forall judge,
       qa_evaluator self = Some judge ->
       (requires_input judge = false <-> mode = "qa_math_without_question")).
Proof.
  unfold get_eval_config. intros H.
  destruct (__init__ ChatOpenAI load_failure eval_llm mode) as [e|self] eqn:Hinit;
    [discriminate|].
  simpl in H. injection H as <-.
  exists self. split; [reflexivity|]. split; [reflexivity|].
  apply init_Return_cases in Hinit
    as [(-> & -> & ->)|(m & _ & [(-> & _ & ->)|[(-> & _ & ->)|(-> & ->)]])];
    cbn [qa_evaluator output_evaluation];
    (split; [reflexivity|]);
    (split; [split; intros; congruence|]);
    intros judge [= <-]; cbn [requires_input]; split; intros; congruence.
Qed.

End RunEvaluator.

(** ** Properties of the few-shot strings *)

Lemma append_assoc (a b c : string) :
  String.append (String.append a b) c = String.append a (String.append b c).
Proof. induction a as [|x a IH]; simpl; [reflexivity | now rewrite IH]. Qed.

Lemma append_empty_r (a : string) : String.append a EmptyString = a.
Proof. induction a as [|x a IH]; simpl; [reflexivity | now rewrite IH]. Qed.

(** The inner loop only ever appends to the string it is given. *)
Lemma render_blocks_acc (acc : string) (blocks : list content_part) :
  render_blocks acc blocks =
    (rendered <- render_blocks EmptyString blocks ;;
     Return (String.append acc rendered)).
Proof.
  revert acc. induction blocks as [|tool_use rest IH]; intros acc.
  - simpl. now rewrite append_empty_r.
  - simpl. destruct (render_tool_use tool_use) as [e|piece]; simpl;
      [reflexivity|].
    rewrite (IH (String.append (String.append acc piece) LF)).
    rewrite (IH (String.append piece LF)).
    destruct (render_blocks EmptyString rest) as [e|rendered]; simpl;
      [reflexivity|].
    now rewrite !append_assoc.
Qed.

Lemma turn_messages_loop_cons (acc : string) (m : Message) (rest : list Message) :
  turn_messages_loop acc (m :: rest) =
    (chunk <- render_message m ;;
     turn_messages_loop (String.append acc chunk) rest).
Proof.
  simpl. unfold render_message. destruct (content m) as [text|blocks].
  - simpl. now rewrite append_assoc.
  - rewrite render_blocks_acc.
    destruct (render_blocks EmptyString blocks) as [e|rendered]; simpl;
      [reflexivity|].
    f_equal. now rewrite !append_assoc.
Qed.

Lemma turn_messages_loop_acc (acc : string) (messages : list Message) :
  turn_messages_loop acc messages =
    (rendered <- turn_messages_loop EmptyString messages ;;
     Return (String.append acc rendered)).
Proof.
  revert acc. induction messages as [|m rest IH]; intros acc.
  - simpl. now rewrite append_empty_r.
  - rewrite !turn_messages_loop_cons.
    destruct (render_message m) as [e|chunk]; simpl; [reflexivity|].
    rewrite (IH (String.append acc chunk)), (IH chunk).
    destruct (turn_messages_loop EmptyString rest) as [e|rendered]; simpl;
      [reflexivity|].
    now rewrite append_assoc.
Qed.

Lemma turn_messages_to_str_cons (m : Message) (rest : list Message) :
  turn_messages_to_str (m :: rest) =
    (chunk <- render_message m ;;
     rendered <- turn_messages_to_str rest ;;
     Return (String.append chunk rendered)).
Proof.
  unfold turn_messages_to_str. rewrite turn_messages_loop_cons.
  destruct (render_message m) as [e|chunk]; simpl; [reflexivity|].
  apply turn_messages_loop_acc.
Qed.

Lemma turn_messages_to_str_append (first second : list Message) :
  turn_messages_to_str (first ++ second) =
    (first_str <- turn_messages_to_str first ;;
     second_str <- turn_messages_to_str second ;;
     Return (String.append first_str second_str)).
Proof.
  induction first as [|m rest IH].
  - simpl. destruct (turn_messages_to_str second); reflexivity.
  - rewrite <- app_comm_cons, !turn_messages_to_str_cons, IH.
    destruct (render_message m) as [e|chunk]; simpl; [reflexivity|].
    destruct (turn_messages_to_str rest) as [e|rest_str]; simpl; [reflexivity|].
    destruct (turn_messages_to_str second) as [e|second_str]; simpl;
      [reflexivity|].
    now rewrite append_assoc.
Qed.

(** X16: rendering a concatenation of message lists is rendering each list
    and concatenating the strings; a failure in the first list, else in the
    second, is the failure of the whole. *)
Theorem turn_messages_to_str_app (first second : list Message) :
  turn_messages_to_str (first ++ second) =
    (first_str <- turn_messages_to_str first ;;
     second_str <- turn_messages_to_str second ;;
     Return (String.append first_str second_str)).
Proof. apply turn_messages_to_str_append. Qed.






Lemma render_message_framed (m : Message) (chunk : string) :
  render_message m = Return chunk -> framed (role_tag m) chunk.
Proof.
  unfold render_message, role_tag, framed.
  destruct (content m) as [text|blocks].
  - intros [= <-]. exists (String.append LF text).
    destruct (class_of m); cbn [render_text];
      now rewrite ?append_assoc.
  - destruct (render_blocks EmptyString blocks) as [e|rendered];
      [discriminate|].
    simpl. intros [= <-]. now exists rendered.
Qed.

(** X18: a rendered string is the concatenation, in order, of one chunk
    per message; each chunk opens with "<|im_start|>" and a role and closes
    with "<|im_end|>" and a line feed. The role is "assistant" for every
    list-valued content whatever the class of the message, and for string
    contents "user" for a human message, "tool" for a tool message and
    "assistant" for any other class. *)
Theorem turn_messages_to_str_chunks (messages : list Message) (rendered : string) :
  turn_messages_to_str messages = Return rendered ->
  exists chunks,
    rendered = String.concat EmptyString chunks /\
    Forall2 (fun m chunk =>
               turn_messages_to_str [m] = Return chunk /\
               framed (role_tag m) chunk)
            messages chunks.
Proof.
  revert rendered. induction messages as [|m rest IH]; intros rendered.
  - intros [= <-]. exists []. split; [reflexivity | constructor].
  - rewrite turn_messages_to_str_cons.
    destruct (render_message m) as [e|chunk] eqn:Hm; [discriminate|].
    destruct (turn_messages_to_str rest) as [e|rest_str]; [discriminate|].
    simpl. intros [= <-].
    destruct (IH rest_str eq_refl) as (chunks & -> & Hall).
    exists (chunk :: chunks). split.
    + destruct chunks as [|c chunks]; simpl;
        [now rewrite append_empty_r | reflexivity].
    + constructor; [|exact Hall]. split.
      * rewrite turn_messages_to_str_cons, Hm. simpl.
        now rewrite append_empty_r.
      * now apply render_message_framed.
Qed.

(** ** Properties of the few-shot collection *)

Lemma without_system_app (a b : list Message) :
  without_system (a ++ b) = without_system a ++ without_system b.
Proof. apply filter_app. Qed.

Lemma without_system_concat (conversations : list (list Message)) :
  without_system (List.concat conversations) =
    List.concat (map without_system conversations).
Proof.
  induction conversations as [|c rest IH]; [reflexivity|].
  simpl. now rewrite without_system_app, IH.
Qed.

Lemma without_system_not_system (messages : list Message) :
  Forall not_system (without_system messages).
Proof.
  apply Forall_forall. intros m Hin.
  apply filter_In in Hin as [_ Hm].
  unfold not_system, isinstance_SystemMessage in *.
  destruct (class_of m); [discriminate | discriminate | discriminate | discriminate].
Qed.

Lemma concat_firstn_prefix {A : Type} (n : nat) (l : list (list A)) :
  exists rest, List.concat l = List.concat (firstn n l) ++ rest.
Proof.
  exists (List.concat (skipn n l)).
  now rewrite <- concat_app, firstn_skipn.
Qed.

Section FewShot.

Variable raw : Type.
Variable convert_to_messages : raw -> outcome (list Message).
Variable list_examples : string -> outcome (list (DatasetExample raw)).

Local Abbreviation loop := (few_shot_loop convert_to_messages).
Local Abbreviation get := (get_few_shot_messages convert_to_messages list_examples).
Local Abbreviation collected :=
  (fun e (cx : list Message * few_shot_example) =>
     collects convert_to_messages e (fst cx) (snd cx)).

Implicit Types (es : list (DatasetExample raw))
  (examples : list few_shot_example) (few three : list Message)
  (cxs : list (list Message * few_shot_example)).

(** What the loop has accumulated when it returns. *)
Lemma few_shot_loop_Return es : forall (i : nat) examples few three examples' few' three',
  loop i es examples few three = Return (examples', few', three') ->
  exists cxs,
    Forall2 collected es cxs /\
    examples' = examples ++ map snd cxs /\
    few' = few ++ List.concat (map fst cxs) /\
    three' = three ++ List.concat (firstn (3 - i) (map fst cxs)).
Proof.
  induction es as [|e rest IH]; intros i examples few three examples' few' three'.
  - simpl. intros [= <- <- <-]. exists [].
    split; [constructor|]. simpl. now rewrite !app_nil_r, firstn_nil, app_nil_r.
  - cbn [few_shot_loop].
    destruct (outputs_output e) as [stored|] eqn:Hout; [|discriminate].
    cbn [subscript bind].
    destruct (convert_to_messages stored) as [err|converted] eqn:Hconv;
      [discriminate|].
    cbn [bind].
    destruct (nth_error converted 1) as [second|] eqn:Hsecond; [|discriminate].
    cbn [bind]. intros H.
    apply IH in H as (cxs & Hall & -> & -> & ->).
    exists ((converted,
             {| example_question := content second;
                example_messages := without_system converted |}) :: cxs).
    split; [constructor; [|exact Hall]|].
    { exists stored, second. auto. }
    cbn [map fst snd List.concat]. rewrite <- !app_assoc.
    split; [reflexivity|]. split; [reflexivity|].
    destruct (Nat.ltb_spec i 3) as [Hlt|Hge].
    + replace (3 - i)%nat with (S (3 - S i)) by lia.
      cbn [firstn List.concat]. now rewrite <- app_assoc.
    + replace (3 - i)%nat with 0%nat by lia.
      replace (3 - S i)%nat with 0%nat by lia. reflexivity.
Qed.

(** What a returned triple is made of. *)
Lemma get_few_shot_messages_Return (task_name : string) examples few three :
  get task_name = Return (examples, few, three) ->
  task_name = few_shot_task /\
  exists es cxs,
    list_examples few_shot_dataset = Return es /\
    Forall2 collected es cxs /\
    examples = map snd cxs /\
    few = List.concat (map without_system (map fst cxs)) /\
    three = List.concat (map without_system (firstn 3 (map fst cxs))).
Proof.
  unfold get_few_shot_messages.
  destruct (String.eqb_spec task_name few_shot_task) as [->|Hne]; [|discriminate].
  destruct (list_examples few_shot_dataset) as [err|es]; [discriminate|].
  cbn [bind].
  destruct (loop 0 es [] [] []) as [err|[[examples' few'] three']] eqn:Hloop;
    [discriminate|].
  cbn [bind]. intros [= <- <- <-].
  apply few_shot_loop_Return in Hloop as (cxs & Hall & -> & -> & ->).
  split; [reflexivity|]. exists es, cxs.
  repeat split; try assumption; cbn [app];
    now rewrite without_system_concat.
Qed.

Lemma collected_messages es cxs :
  Forall2 collected es cxs ->
  map example_messages (map snd cxs) = map without_system (map fst cxs).
Proof.
  induction 1 as [|e cx es cxs (stored & second & _ & _ & _ & Hx) _ IH];
    [reflexivity|].
  cbn [map]. rewrite IH, Hx. reflexivity.
Qed.

Lemma few_shot_messages_of_examples (task_name : string) examples few three :
  get task_name = Return (examples, few, three) ->
  few = List.concat (map example_messages examples) /\
  three = List.concat (map example_messages (firstn 3 examples)).
Proof.
  intros H.
  apply get_few_shot_messages_Return in H
    as (_ & es & cxs & _ & Hall & -> & -> & ->).
  rewrite firstn_map, (collected_messages es cxs Hall).
  split; [reflexivity|].
  now rewrite <- !firstn_map, <- (collected_messages es cxs Hall), !firstn_map.
Qed.

(** X19: the full few-shot message list returned by
    [get_few_shot_messages] is the concatenation, in order, of the
    "messages" of the returned examples, and the three-shot list is that of
    the first three examples: it is a prefix of the full list, and the whole
    of it when at most three examples were listed. *)
Theorem few_shot_messages_from_examples (task_name : string) examples few three :
  get_few_shot_messages convert_to_messages list_examples task_name
    = Return (examples, few, three) ->
  few = List.concat (map example_messages examples) /\
  three = List.concat (map example_messages (firstn 3 examples)) /\
  (exists rest, few = three ++ rest) /\
  ((List.length examples <= 3)%nat -> three = few).
Proof.
  intros H.
  destruct (few_shot_messages_of_examples task_name examples few three H)
    as [-> ->].
  split; [reflexivity|]. split; [reflexivity|].
  split.
  - rewrite <- firstn_map. apply concat_firstn_prefix.
  - intros Hlen. now rewrite firstn_all2.
Qed.

(** X20: nothing [get_few_shot_messages] returns holds a system message:
    neither of the two message lists, nor the "messages" of any example. *)
Theorem few_shot_messages_without_system (task_name : string) examples few three :
  get_few_shot_messages convert_to_messages list_examples task_name
    = Return (examples, few, three) ->
  Forall not_system few /\
  Forall not_system three /\
  Forall (fun x => Forall not_system (example_messages x)) examples.
Proof.
  intros H.
  apply get_few_shot_messages_Return in H
    as (_ & es & cxs & _ & Hall & -> & -> & ->).
  rewrite <- !without_system_concat.
  split; [apply without_system_not_system|].
  split; [apply without_system_not_system|].
  clear -Hall. induction Hall as [|e cx es cxs (stored & second & _ & _ & _ & Hx) _ IH];
    [constructor|].
  cbn [map]. constructor; [|exact IH].
  rewrite Hx. apply without_system_not_system.
Qed.

(** X21: [get_few_shot_messages] returns one example per listed dataset
    example, in order; its "question" is the content of the message at
    index 1 of the converted conversation, whatever the class of that
    message, and its "messages" are the converted messages other than
    system messages. *)
Theorem few_shot_examples_collected (task_name : string) examples few three :
  get_few_shot_messages convert_to_messages list_examples task_name
    = Return (examples, few, three) ->
  exists es,
    list_examples few_shot_dataset = Return es /\
    Forall2 (fun e x =>
               exists stored converted second,
                 outputs_output e = Some stored /\
                 convert_to_messages stored = Return converted /\
                 nth_error converted 1 = Some second /\
                 example_question x = content second /\
                 example_messages x = without_system converted)
            es examples.
Proof.
  intros H.
  apply get_few_shot_messages_Return in H
    as (_ & es & cxs & Hlist & Hall & -> & _ & _).
  exists es. split; [exact Hlist|].
  clear -Hall. induction Hall as [|e cx es cxs (stored & second & Ho & Hc & Hs & Hx) _ IH];
    [constructor|].
  cbn [map]. constructor; [|exact IH].
  exists stored, (fst cx), second. rewrite Hx. auto.
Qed.



(** X24: for the two message lists [get_few_shot_messages] returns, if the
    full list renders to a string then [get_few_shot_str_from_messages]
    returns that string paired with the rendering of the three-shot list,
    and the three-shot string is a prefix of the full one. *)
Theorem few_shot_three_str_prefix (task_name : string) examples few three
    (few_shot_str : string) :
  get_few_shot_messages convert_to_messages list_examples task_name
    = Return (examples, few, three) ->
  turn_messages_to_str few = Return few_shot_str ->
  exists few_shot_three_str rest,
    get_few_shot_str_from_messages few three
      = Return (few_shot_str, few_shot_three_str) /\
    few_shot_str = String.append few_shot_three_str rest.
Proof.
  intros H Hstr.
  destruct (few_shot_messages_of_examples task_name examples few three H)
    as [Hfew Hthree].
  destruct (concat_firstn_prefix 3 (map example_messages examples))
    as [rest Hrest].
  rewrite firstn_map, <- Hfew, <- Hthree in Hrest.
  unfold get_few_shot_str_from_messages. rewrite Hstr. cbn [bind].
  rewrite Hrest, turn_messages_to_str_append in Hstr.
  destruct (turn_messages_to_str three) as [err|three_str]; [discriminate|].
  cbn [bind] in Hstr.
  destruct (turn_messages_to_str rest) as [err|rest_str]; [discriminate|].
  cbn [bind] in Hstr. injection Hstr as <-.
  exists three_str, rest_str. split; reflexivity.
Qed.

End FewShot.

Section Prompts.

Variable raw : Type.
Variable convert_to_messages : raw -> outcome (list Message).
Variable list_examples : string -> outcome (list (DatasetExample raw)).
Variable prompt : Type.
Variable pull_prompt : string -> outcome prompt.

(** X23: for any task name other than "Multiverse Math",
    [get_few_shot_messages] raises the [ValueError] "Few shot messages not
    supported for this dataset", whereas [get_prompts] raises nothing and
    returns [None]; neither consults the client. *)
Theorem unsupported_task (task_name : string) :
  task_name <> few_shot_task ->
  get_few_shot_messages convert_to_messages list_examples task_name
    = Raise (ValueError "Few shot messages not supported for this dataset") /\
  get_prompts pull_prompt task_name = Return None.
Proof.
  intros Hne. apply String.eqb_neq in Hne.
  unfold get_few_shot_messages, get_prompts. now rewrite Hne.
Qed.

(** X25: on "Multiverse Math", [get_prompts] returns a list when all five
    pulls succeed: the five pulled prompts in the order of their
    repositories, named "no-few-shot", "few-shot-messages",
    "few-shot-string", "few-shot-three-messages" and
    "few-shot-three-strings"; when it fails, the error is that of a pull
    from one of the five repositories. *)
Theorem get_prompts_outcome :
  (forall r, get_prompts pull_prompt few_shot_task = Return r ->
     exists prompts,
       r = Some prompts /\
       map snd prompts = prompt_names /\
       Forall2 (fun repository pulled => pull_prompt repository = Return pulled)
               prompt_repositories (map fst prompts)) /\
  (forall e, get_prompts pull_prompt few_shot_task = Raise e ->
     exists repository,
       In repository prompt_repositories /\ pull_prompt repository = Raise e).
Proof.
  unfold get_prompts, prompt_repositories. rewrite String.eqb_refl.
  destruct (pull_prompt "langchain-ai/multiverse-math-no-few-shot")
    as [e1|p1] eqn:H1; cbn [bind].
  { split; [discriminate|]. intros e [= <-]. eexists. split; [|exact H1].
    simpl; auto. }
  destruct (pull_prompt "langchain-ai/multiverse-math-few-shot-messages")
    as [e2|p2] eqn:H2; cbn [bind].
  { split; [discriminate|]. intros e [= <-]. eexists. split; [|exact H2].
    simpl; auto. }
  destruct (pull_prompt "langchain-ai/multiverse-math-few-shot-str")
    as [e3|p3] eqn:H3; cbn [bind].
  { split; [discriminate|]. intros e [= <-]. eexists. split; [|exact H3].
    simpl; auto. }
  destruct (pull_prompt "langchain-ai/multiverse-math-few-shot-3-messages")
    as [e4|p4] eqn:H4; cbn [bind].
  { split; [discriminate|]. intros e [= <-]. eexists. split; [|exact H4].
    simpl; auto. }
  destruct (pull_prompt "langchain-ai/multiverse-math-few-shot-3-str")
    as [e5|p5] eqn:H5; cbn [bind].
  { split; [discriminate|]. intros e [= <-]. eexists. split; [|exact H5].
    simpl; auto 6. }
  split; [|discriminate].
  intros r [= <-]. eexists. split; [reflexivity|]. split; [reflexivity|].
  cbn [map fst]. repeat constructor; assumption.
Qed.

End Prompts.

(** ** Further worked evaluations *)

Lemma results_keys_witness :
  exists res,
    Stub.compare_outputs (Stub.run_with_output ["add"] "4")
      (Stub.example_with_reference ["add"] "4") (Stub.question "2 + 2?")
      (Some (QAMathEvaluator "CORRECT"))
      = Return res /\
    map key (results res) = [trajectory_key; ratio_key; correctness_key].
Proof.
  eexists. split; [vm_compute; reflexivity|].
  exact (results_keys Z Z.eqb Stub.llm Stub.chain_invoke Stub.qa_chain_evaluate
           (Stub.run_with_output ["add"] "4")
           (Stub.example_with_reference ["add"] "4") (Stub.question "2 + 2?")
           (Some (QAMathEvaluator "CORRECT")) _ eq_refl).
Defined.

Lemma correct_trajectory_has_ratio_one_witness :
  exists res,
    Stub.compare_outputs (Stub.run_with_steps ["b"; "a"])
      (Stub.example_with_steps ["a"; "b"] (Some false)) Stub.no_inputs None
      = Return res /\
    find_score trajectory_key res = Some (IntScore 1) /\
    exists q, find_score ratio_key res = Some (FloatScore q) /\ q == 1.
Proof.
  eexists. split; [vm_compute; reflexivity|]. split; [reflexivity|].
  exact (correct_trajectory_has_ratio_one Z Z.eqb Stub.llm
           Stub.chain_invoke Stub.qa_chain_evaluate
           (Stub.run_with_steps ["b"; "a"])
           (Stub.example_with_steps ["a"; "b"] (Some false)) Stub.no_inputs None
           _ eq_refl eq_refl).
Defined.

Lemma relaxing_order_never_lowers_score_witness :
  exists res res',
    Stub.compare_outputs (Stub.run_with_steps ["b"; "a"])
      (Stub.example_with_steps ["a"; "b"] None) Stub.no_inputs None
      = Return res /\
    Stub.compare_outputs (Stub.run_with_steps ["b"; "a"])
      (Stub.example_with_steps ["a"; "b"] (Some false)) Stub.no_inputs None
      = Return res' /\
    exists s s',
      find_score trajectory_key res = Some (IntScore s) /\
      find_score trajectory_key res' = Some (IntScore s') /\
      (s <= s')%Z.
Proof.
  eexists. eexists.
  split; [vm_compute; reflexivity|]. split; [vm_compute; reflexivity|].
  exact (relaxing_order_never_lowers_score Z Z.eqb Stub.llm
           Stub.chain_invoke Stub.qa_chain_evaluate
           (Stub.run_with_steps ["b"; "a"])
           (Stub.example_with_steps ["a"; "b"] None)
           (Stub.example_with_steps ["a"; "b"] (Some false))
           Stub.no_inputs Stub.no_inputs None None _ _
           eq_refl eq_refl eq_refl eq_refl).
Defined.

Lemma no_tool_calls_score_zero_witness :
  extract_actual_steps (Stub.run_with_steps []) = Return [] /\
  exists res,
    Stub.compare_outputs (Stub.run_with_steps [])
      (Stub.example_with_steps ["add"] None) Stub.no_inputs None
      = Return res /\
    find_score trajectory_key res = Some (IntScore 0) /\
    exists q, find_score ratio_key res = Some (FloatScore q) /\ q == 0.
Proof.
  split; [reflexivity|].
  eexists. split; [vm_compute; reflexivity|].
  exact (no_tool_calls_score_zero Z Z.eqb Stub.llm
           Stub.chain_invoke Stub.qa_chain_evaluate
           (Stub.run_with_steps []) (Stub.example_with_steps ["add"] None)
           Stub.no_inputs None _ eq_refl eq_refl).
Defined.

Lemma final_state_score_witness :
  exists res,
    Stub.compare_outputs (Sample.run_with_state ["add"] 7)
      (Sample.example_with_state ["add"] 8) Stub.no_inputs None
      = Return res /\
    find_score state_key res = Some (IntScore 0).
Proof.
  eexists. split; [vm_compute; reflexivity|].
  exact (final_state_score Z Z.eqb Stub.llm
           Stub.chain_invoke Stub.qa_chain_evaluate
           (Sample.run_with_state ["add"] 7)
           (Sample.example_with_state ["add"] 8) Stub.no_inputs None
           _ eq_refl).
Defined.

Lemma judge_failure_propagates_witness :
  judge_call Sample.failing_chain_invoke Stub.qa_chain_evaluate
    (Stub.example_with_reference ["add"] "4") (Stub.question "2 + 2?")
    (QAMathEvaluator "CORRECT") "4"
    = Raise (ProviderError "request timed out") /\
  compare_outputs Z.eqb Sample.failing_chain_invoke Stub.qa_chain_evaluate
    (Stub.run_with_output ["add"] "4")
    (Stub.example_with_reference ["add"] "4") (Stub.question "2 + 2?")
    (Some (QAMathEvaluator "CORRECT"))
    = Raise (ProviderError "request timed out").
Proof.
  split; [reflexivity|].
  refine (judge_failure_propagates Z Z.eqb Stub.llm
            Sample.failing_chain_invoke Stub.qa_chain_evaluate
            (Stub.run_with_output ["add"] "4")
            (Stub.example_with_reference ["add"] "4") (Stub.question "2 + 2?")
            (QAMathEvaluator "CORRECT") ["add"] ["add"] "4" _
            eq_refl eq_refl _ eq_refl eq_refl).
  simpl; lia.
Defined.

Lemma untraced_judgement_fails_witness :
  judge_call Sample.untraced_chain_invoke Stub.qa_chain_evaluate
    (Stub.example_with_reference ["add"] "4") (Stub.question "2 + 2?")
    (QAMathEvaluator "CORRECT") "4"
    = Return (IntScore 1, []) /\
  compare_outputs Z.eqb Sample.untraced_chain_invoke Stub.qa_chain_evaluate
    (Stub.run_with_output ["add"] "4")
    (Stub.example_with_reference ["add"] "4") (Stub.question "2 + 2?")
    (Some (QAMathEvaluator "CORRECT"))
    = Raise (IndexError "list index out of range").
Proof.
  split; [reflexivity|].
  refine (untraced_judgement_fails Z Z.eqb Stub.llm
            Sample.untraced_chain_invoke Stub.qa_chain_evaluate
            (Stub.run_with_output ["add"] "4")
            (Stub.example_with_reference ["add"] "4") (Stub.question "2 + 2?")
            (QAMathEvaluator "CORRECT") ["add"] ["add"] "4" (IntScore 1)
            eq_refl eq_refl _ eq_refl eq_refl).
  simpl; lia.
Defined.

Lemma correctness_entry_provenance_witness :
  exists res,
    Stub.compare_outputs (Stub.run_with_output ["add"] "4")
      (Stub.example_with_reference ["add"] "4") (Stub.question "2 + 2?")
      (Some (QAMathEvaluator "CORRECT"))
      = Return res /\
    exists s run0 runs,
      judge_call Stub.chain_invoke Stub.qa_chain_evaluate
        (Stub.example_with_reference ["add"] "4") (Stub.question "2 + 2?")
        (QAMathEvaluator "CORRECT") "4"
        = Return (s, run0 :: runs) /\
      find_result correctness_key res =
        Some {| key := correctness_key; score_of := s;
                comment := None; source_run_id := Some run0 |}.
Proof.
  eexists. split; [vm_compute; reflexivity|].
  exact (correctness_entry_provenance Z Z.eqb Stub.llm
           Stub.chain_invoke Stub.qa_chain_evaluate
           (Stub.run_with_output ["add"] "4")
           (Stub.example_with_reference ["add"] "4") (Stub.question "2 + 2?")
           (QAMathEvaluator "CORRECT") "4" _ eq_refl eq_refl).
Defined.

Lemma trajectory_entry_comment_witness :
  exists res,
    Stub.compare_outputs (Stub.run_with_steps ["b"; "a"])
      (Stub.example_with_steps ["a"; "b"] (Some false)) Stub.no_inputs None
      = Return res /\
    exists r,
      find_result trajectory_key res = Some r /\
      comment r = Some "Order matters=False" /\
      source_run_id r = None.
Proof.
  eexists. split; [vm_compute; reflexivity|].
  exact (trajectory_entry_comment Z Z.eqb Stub.llm
           Stub.chain_invoke Stub.qa_chain_evaluate
           (Stub.run_with_steps ["b"; "a"])
           (Stub.example_with_steps ["a"; "b"] (Some false)) Stub.no_inputs None
           _ eq_refl).
Defined.

Lemma evaluate_run_returns_iff_witness :
  exists res,
    Stub.compare_outputs (Stub.run_with_output ["add"] "4")
      (Stub.example_with_reference ["add"] "4") (Stub.question "2 + 2?")
      (qa_evaluator Sample.judge)
      = Return res /\
    Stub.evaluate_run Sample.judge
      (Sample.run_of (Stub.run_with_output ["add"] "4"))
      (Some (Sample.example_of (Stub.example_with_reference ["add"] "4")))
      = Return res.
Proof.
  eexists. split; [vm_compute; reflexivity|].
  apply (proj2 (evaluate_run_returns_iff Z Z.eqb Stub.llm
                  Stub.chain_invoke Stub.qa_chain_evaluate Sample.judge
                  (Sample.run_of (Stub.run_with_output ["add"] "4"))
                  (Some (Sample.example_of
                           (Stub.example_with_reference ["add"] "4"))) _)).
  exists (Stub.run_with_output ["add"] "4"),
         (Sample.example_of (Stub.example_with_reference ["add"] "4")),
         (Stub.example_with_reference ["add"] "4").
  repeat split.
Defined.

Lemma missing_expected_steps_witness :
  example_expected_steps (Sample.example_without_steps "4") = None /\
  Stub.evaluate_run Sample.judge
    (Sample.run_of (Stub.run_with_output ["add"] "4"))
    (Some (Sample.example_of (Sample.example_without_steps "4")))
    = Raise (ValueError missing_expected_message) /\
  Stub.compare_outputs (Stub.run_with_output ["add"] "4")
    (Sample.example_without_steps "4") (Stub.question "2 + 2?")
    (qa_evaluator Sample.judge)
    = Raise (KeyError "expected_steps").
Proof.
  split; [reflexivity|].
  exact (missing_expected_steps Z Z.eqb Stub.llm
           Stub.chain_invoke Stub.qa_chain_evaluate Sample.judge
           (Sample.run_of (Stub.run_with_output ["add"] "4"))
           (Stub.run_with_output ["add"] "4")
           (Sample.example_of (Sample.example_without_steps "4"))
           (Sample.example_without_steps "4") ["add"]
           eq_refl eq_refl eq_refl eq_refl).
Defined.

Lemma evaluate_run_validation_order_witness :
  outputs Sample.run_without_outputs = None /\
  Stub.evaluate_run Sample.judge Sample.run_without_outputs None
    = Raise (ValueError "Run outputs cannot be None") /\
  Stub.evaluate_run Sample.judge
    (Sample.run_of (Stub.run_without_steps "4")) None
    = Raise (ValueError "Example cannot be None").
Proof.
  split; [reflexivity|]. split.
  - exact (proj1 (evaluate_run_validation_order Z Z.eqb Stub.llm
                    Stub.chain_invoke Stub.qa_chain_evaluate Sample.judge
                    Sample.run_without_outputs) eq_refl None).
  - exact (proj2 (evaluate_run_validation_order Z Z.eqb Stub.llm
                    Stub.chain_invoke Stub.qa_chain_evaluate Sample.judge
                    (Sample.run_of (Stub.run_without_steps "4")))
                 (Stub.run_without_steps "4") eq_refl).
Defined.

Lemma init_returns_iff_witness :
  __init__ Stub.ChatOpenAI Stub.load_failure (Some "INCORRECT")
    "qa_math_without_question"
    = Return {| qa_evaluator := Some (QAMathEvaluator "INCORRECT");
                output_evaluation := "qa_math_without_question" |} /\
  __init__ Stub.ChatOpenAI Stub.load_failure None "qa"
    = Return {| qa_evaluator := Some (QAEvalChain "CORRECT" None);
                output_evaluation := "qa" |}.
Proof.
  split.
  - apply (proj2 (init_returns_iff Stub.llm Stub.ChatOpenAI Stub.load_failure
                    (Some "INCORRECT") "qa_math_without_question" _)).
    right. exists "INCORRECT". split; [reflexivity|].
    right; right. split; reflexivity.
  - apply (proj2 (init_returns_iff Stub.llm Stub.ChatOpenAI Stub.load_failure
                    None "qa" _)).
    right. exists "CORRECT". split; [reflexivity|].
    left. repeat split.
Defined.

Lemma init_raises_iff_witness :
  __init__ Stub.ChatOpenAI Stub.load_failure None "QA"
    = Raise (ValueError "output_evaluation must be one of 'qa' or 'none', got QA") /\
  __init__ Sample.failing_ChatOpenAI Stub.load_failure None "QA"
    = Raise (ProviderError "no API key").
Proof.
  split.
  - apply (proj2 (init_raises_iff Stub.llm Stub.ChatOpenAI Stub.load_failure
                    None "QA" _)).
    right; right. exists "CORRECT". split; [reflexivity|].
    right; right. repeat split; discriminate.
  - apply (proj2 (init_raises_iff Stub.llm Sample.failing_ChatOpenAI
                    Stub.load_failure None "QA" _)).
    right; left. split; [discriminate | reflexivity].
Defined.

Lemma eval_config_evaluator_witness :
  exists custom_evaluators,
    get_eval_config Stub.ChatOpenAI Stub.load_failure None "qa_math" = Return custom_evaluators /\
    exists self,
      custom_evaluators = [self] /\
      __init__ Stub.ChatOpenAI Stub.load_failure None "qa_math" = Return self /\
      output_evaluation self = "qa_math" /\
      (qa_evaluator self = None <-> "qa_math" = "none") /\
      (forall judge,
         qa_evaluator self = Some judge ->
         (requires_input judge = false <->
          "qa_math" = "qa_math_without_question")).
Proof.
  eexists. split; [vm_compute; reflexivity|].
  exact (eval_config_evaluator Stub.llm Stub.ChatOpenAI Stub.load_failure
           None "qa_math" _ eq_refl).
Defined.


Lemma turn_messages_to_str_chunks_witness :
  exists rendered chunks,
    turn_messages_to_str (StubScript.conversation "1 + 2?" "3.3")
      = Return rendered /\
    rendered = String.concat EmptyString chunks /\
    Forall2 (fun m chunk =>
               turn_messages_to_str [m] = Return chunk /\
               framed (role_tag m) chunk)
            (StubScript.conversation "1 + 2?" "3.3") chunks.
Proof.
  destruct (turn_messages_to_str_chunks
              (StubScript.conversation "1 + 2?" "3.3") _ eq_refl)
    as (chunks & Hconcat & Hall).
  eexists. exists chunks.
  split; [reflexivity|]. split; [exact Hconcat | exact Hall].
Defined.

Lemma few_shot_messages_from_examples_witness :
  exists examples few three,
    StubScript.get_few_shot_messages few_shot_task
      = Return (examples, few, three) /\
    List.length examples = 4%nat /\
    few = List.concat (map example_messages examples) /\
    three = List.concat (map example_messages (firstn 3 examples)) /\
    exists rest, few = three ++ rest.
Proof.
  eexists. eexists. eexists.
  split; [vm_compute; reflexivity|]. split; [reflexivity|].
  destruct (few_shot_messages_from_examples (list Message)
              StubScript.convert_to_messages StubScript.list_examples
              few_shot_task _ _ _ eq_refl) as (Hfew & Hthree & Hprefix & _).
  split; [exact Hfew|]. split; [exact Hthree | exact Hprefix].
Defined.

Lemma few_shot_messages_without_system_witness :
  exists examples few three,
    StubScript.get_few_shot_messages few_shot_task
      = Return (examples, few, three) /\
    Forall not_system few /\
    Forall not_system three /\
    Forall (fun x => Forall not_system (example_messages x)) examples.
Proof.
  eexists. eexists. eexists.
  split; [vm_compute; reflexivity|].
  exact (few_shot_messages_without_system (list Message)
           StubScript.convert_to_messages StubScript.list_examples
           few_shot_task _ _ _ eq_refl).
Defined.

Lemma few_shot_examples_collected_witness :
  exists examples few three,
    StubScript.get_few_shot_messages few_shot_task
      = Return (examples, few, three) /\
    exists es,
      StubScript.list_examples few_shot_dataset = Return es /\
      Forall2 (fun e x =>
                 exists stored converted second,
                   outputs_output e = Some stored /\
                   StubScript.convert_to_messages stored = Return converted /\
                   nth_error converted 1 = Some second /\
                   example_question x = content second /\
                   example_messages x = without_system converted)
              es examples.
Proof.
  eexists. eexists. eexists.
  split; [vm_compute; reflexivity|].
  exact (few_shot_examples_collected (list Message)
           StubScript.convert_to_messages StubScript.list_examples
           few_shot_task _ _ _ eq_refl).
Defined.


Lemma few_shot_three_str_prefix_witness :
  exists examples few three few_shot_str,
    StubScript.get_few_shot_messages few_shot_task
      = Return (examples, few, three) /\
    turn_messages_to_str few = Return few_shot_str /\
    exists few_shot_three_str rest,
      get_few_shot_str_from_messages few three
        = Return (few_shot_str, few_shot_three_str) /\
      few_shot_str = String.append few_shot_three_str rest.
Proof.
  eexists. eexists. eexists. eexists.
  split; [vm_compute; reflexivity|]. split; [vm_compute; reflexivity|].
  exact (few_shot_three_str_prefix (list Message)
           StubScript.convert_to_messages StubScript.list_examples
           few_shot_task _ _ _ _ eq_refl eq_refl).
Defined.

Lemma unsupported_task_witness :
  "Relational Data" <> few_shot_task /\
  StubScript.get_few_shot_messages "Relational Data"
    = Raise (ValueError "Few shot messages not supported for this dataset") /\
  get_prompts StubScript.pull_prompt "Relational Data" = Return None.
Proof.
  split; [discriminate|].
  refine (unsupported_task (list Message) StubScript.convert_to_messages
            StubScript.list_examples string StubScript.pull_prompt
            "Relational Data" _).
  discriminate.
Defined.

Lemma get_prompts_outcome_witness :
  exists prompts,
    get_prompts StubScript.pull_prompt few_shot_task = Return (Some prompts) /\
    map snd prompts = prompt_names /\
    Forall2 (fun repository pulled =>
               StubScript.pull_prompt repository = Return pulled)
            prompt_repositories (map fst prompts).
Proof.
  destruct (proj1 (get_prompts_outcome string StubScript.pull_prompt) _ eq_refl)
    as (prompts & Hsome & Hnames & Hpulled).
  exists prompts. split; [rewrite <- Hsome; reflexivity|]. split; assumption.
Defined.
